(** * ReportsAPI: the report pipelines of [app/reports.py]

    A shallow embedding of [ReportGenerator] (four pandas pipelines over a
    SQLite vehicle-sales database, each written to a CSV file) together with
    the properties its specification states about them.

    The fragment of pandas the pipelines use is modelled in [Module pd]:
    [merge], [dropna], [groupby], the aggregations ['size'], ['sum'], ['max'],
    ['first'], [Series.mode], [sort_values], [rename] and [to_csv].  Merged
    frames are kept typed (a row of a merge is the pair of the rows it was
    built from, a column is a function on rows); the frame an aggregation
    returns is dynamic (named columns holding cells), because the order and
    the names of its columns are part of what is specified.

    A method of [ReportGenerator] is a function on worlds (the connection
    [self.con], the files, the paths that cannot be written) that returns or
    raises.  Each method is split in three: the rows it aggregates
    ([*_rows]), the frame it hands to [__to_csv] ([*_frame]) and the method
    itself, which reads the tables, computes the frame and writes it.

    Conventions: prices are integers (an amount in the smallest unit) and
    [price] an int64 column, a date is a number of seconds, a CSV file is
    its header and its lines of cells.  Logging has no effect on a result
    and is left out. *)

From Stdlib Require Import ZArith List String Ascii Bool Lia Permutation Sorted.
From stdpp Require Import gmap strings.

Local Open Scope string_scope.

(** ** Values *)

(** A cell of a frame: [NaN] is pandas' missing value ([NaN], [None], [NaT]);
    a timestamp is held as its number of seconds. *)
Inductive cell :=
| NaN
| Int (z : Z)
| Str (s : string).

#[global] Instance cell_eq_dec : EqDecision cell.
Proof. solve_decision. Defined.

(** Exceptions the pipelines can meet. *)
Inductive exn :=
| AttributeError   (* [self.con] was never set: the database file is absent *)
| DatabaseError    (* [read_sql_query] on a table that does not exist *)
| KeyError         (* a label that is not in an index *)
| OSError.         (* the destination cannot be written *)

#[global] Instance exn_eq_dec : EqDecision exn.
Proof. solve_decision. Defined.

(** A computation that returns or raises. *)
Inductive result (A : Type) :=
| Return (a : A)
| Raise (e : exn).
Arguments Return {A} a.
Arguments Raise {A} e.

#[global] Instance result_ret : MRet result := λ A a, Return a.
#[global] Instance result_bind : MBind result := λ A B f m,
  match m with Return a => f a | Raise e => Raise e end.
#[global] Instance result_fmap : FMap result := λ A B f m,
  match m with Return a => Return (f a) | Raise e => Raise e end.

(** [dt.datetime(y, m, d)] as seconds since 1970-01-01 (proleptic Gregorian
    calendar); [sale_dt] values are timestamps on the same scale. *)
Definition days_from_civil (y m d : Z) : Z :=
  let y' := if (m <=? 2)%Z then (y - 1)%Z else y in
  let era := (y' / 400)%Z in
  let yoe := (y' - era * 400)%Z in
  let mp := if (2 <? m)%Z then (m - 3)%Z else (m + 9)%Z in
  let doy := ((153 * mp + 2) / 5 + d - 1)%Z in
  let doe := (yoe * 365 + yoe / 4 - yoe / 100 + doy)%Z in
  (era * 146097 + doe - 719468)%Z.

Definition datetime (y m d : Z) : Z := (86400 * days_from_civil y m d)%Z.

(** ** The tables of the database (all columns nullable, as in SQLite) *)

Module Sale.
Record row := mk {
  sale_id : option Z;
  invoice_id : option Z;
  customer_id : option Z;
  vehicle_id : option Z;
  sale_dt : option Z }.
End Sale.

Module Invoice.
Record row := mk {
  invoice_id : option Z;
  price : option Z }.
End Invoice.

Module Vehicle.
Record row := mk {
  vehicle_id : option Z;
  vehicle_model_id : option Z;
  vehicle_year : option Z }.
End Vehicle.

Module VehicleModel.
Record row := mk {
  vehicle_model_id : option Z;
  brand_name : option string;
  model_name : option string }.
End VehicleModel.

Module Customer.
Record row := mk {
  customer_id : option Z;
  customer_name : option string }.
End Customer.

(** ** Orders used by [groupby] and the sorts *)

Class Ord (K : Type) := leb : K → K → bool.

#[global] Instance Z_ord : Ord Z := Z.leb.
#[global] Instance string_ord : Ord string := String.leb.

Class OrdLaws (K : Type) `{Ord K} := {
  leb_total : ∀ a b : K, leb a b = false → leb b a = true;
  leb_trans : ∀ a b c : K, leb a b = true → leb b c = true → leb a c = true;
  leb_antisym : ∀ a b : K, leb a b = true → leb b a = true → a = b }.

(** Insertion sort: stable, and total on every comparison function. *)
Fixpoint insert_sorted {A} (le : A → A → bool) (x : A) (l : list A) : list A :=
  match l with
  | [] => [x]
  | y :: l' => if le x y then x :: l else y :: insert_sorted le x l'
  end.

Fixpoint isort {A} (le : A → A → bool) (l : list A) : list A :=
  match l with
  | [] => []
  | x :: l' => insert_sorted le x (isort le l')
  end.

(** numpy's [kind='quicksort'] (an introsort) is not stable: what it does
    with equal keys is fixed by the implementation but not documented.  A
    [Sorter] is any sorting routine; the pipelines take one as a parameter
    wherever pandas sorts on a single column. *)
Record Sorter := {
  sort : ∀ A : Type, (A → A → bool) → list A → list A;
  sort_perm : ∀ A (le : A → A → bool) l, sort A le l ≡ₚ l;
  sort_sorted : ∀ A (le : A → A → bool) l,
    (∀ a b, le a b = false → le b a = true) →
    (∀ a b c, le a b = true → le b c = true → le a c = true) →
    Sorted (λ a b, le a b = true) (sort A le l) }.
Arguments sort _ {A} _ _.

(** ** The fragment of pandas the reports use *)

Module pd.

(** *** Cells, null values *)

Class ToCell (A : Type) := to_cell : A → cell.
#[global] Instance Z_to_cell : ToCell Z := Int.
#[global] Instance string_to_cell : ToCell string := Str.
#[global] Instance option_to_cell `{ToCell A} : ToCell (option A) := λ o,
  match o with Some a => to_cell a | None => NaN end.

(** [isnull r]: the row holds a null in some column. *)
Class IsNull (R : Type) := isnull : R → bool.
#[global] Instance option_isnull `{IsNull R} : IsNull (option R) := λ o,
  match o with Some r => isnull r | None => true end.
#[global] Instance pair_isnull `{IsNull L, IsNull R} : IsNull (L * R) := λ p,
  isnull p.1 || isnull p.2.
#[global] Instance sale_isnull : IsNull Sale.row := λ r,
  bool_decide (Sale.sale_id r = None) || bool_decide (Sale.invoice_id r = None)
  || bool_decide (Sale.customer_id r = None) || bool_decide (Sale.vehicle_id r = None)
  || bool_decide (Sale.sale_dt r = None).
#[global] Instance invoice_isnull : IsNull Invoice.row := λ r,
  bool_decide (Invoice.invoice_id r = None) || bool_decide (Invoice.price r = None).
#[global] Instance vehicle_isnull : IsNull Vehicle.row := λ r,
  bool_decide (Vehicle.vehicle_id r = None) || bool_decide (Vehicle.vehicle_model_id r = None)
  || bool_decide (Vehicle.vehicle_year r = None).
#[global] Instance vehicle_model_isnull : IsNull VehicleModel.row := λ r,
  bool_decide (VehicleModel.vehicle_model_id r = None)
  || bool_decide (VehicleModel.brand_name r = None)
  || bool_decide (VehicleModel.model_name r = None).
#[global] Instance customer_isnull : IsNull Customer.row := λ r,
  bool_decide (Customer.customer_id r = None) || bool_decide (Customer.customer_name r = None).

(** [df.dropna()]: the rows without any null. *)
Definition dropna `{IsNull R} (df : list R) : list R :=
  filter (λ r, isnull r = false) df.

(** *** Merges of typed frames *)

(** [pd.merge(left, right, on=k)], an inner join: every left row, in order,
    paired with the right rows of the same key, in order.  As in pandas a
    null key matches a null key.  (Before pandas 2.2 the rows of the result
    come grouped by key; rows of one key keep this relative order in every
    version, and nothing below looks at more than that.) *)
Definition merge {L R K} `{EqDecision K} (left : list L) (right : list R)
    (on_l : L → option K) (on_r : R → option K) : list (L * R) :=
  l ← left; pair l <$> filter (λ r, on_l l = on_r r) right.

(** [pd.merge(left, right, on=k, how='left')]: a left row without a match
    is kept, with nulls ([None]) for the columns of the right frame. *)
Definition merge_left {L R K} `{EqDecision K} (left : list L) (right : list R)
    (on_l : L → option K) (on_r : R → option K) : list (L * option R) :=
  l ← left;
  match filter (λ r, on_l l = on_r r) right with
  | [] => [(l, None)]
  | ms => (λ r, (l, Some r)) <$> ms
  end.

(** *** groupby *)

Record GroupBy (K R : Type) := {
  by_name : string;
  as_index : bool;
  groups : list (K * list R) }.
Arguments by_name {K R} _.
Arguments as_index {K R} _.
Arguments groups {K R} _.

(** [df.groupby(name, as_index=b)]: one group per distinct non-null key,
    groups in ascending key order ([sort=True]), the rows of a group in
    the order they have in [df]. *)
Definition groupby {R K} `{EqDecision K, Ord K} (df : list R)
    (name : string) (key : R → option K) (b : bool) : GroupBy K R :=
  {| by_name := name; as_index := b;
     groups := (λ k, (k, filter (λ r, key r = Some k) df))
                 <$> isort leb (remove_dups (omap key df)) |}.

(** [gb[col].size()]: the number of rows of each group. *)
Definition size_series {K R} (gb : GroupBy K R) : list (K * nat) :=
  (λ g, (g.1, length g.2)) <$> groups gb.

(** [df[df.col.isin(keys)]] *)
Definition isin {R K} `{EqDecision K} (df : list R) (col : R → option K)
    (keys : list K) : list R :=
  filter (λ r, col r ∈ Some <$> keys) df.

(** *** Aggregations of one column over one group *)

Definition sum_list (l : list Z) : Z := foldr Z.add 0%Z l.

Definition max_list (l : list Z) : option Z :=
  match l with
  | [] => None
  | x :: l' => Some (foldl Z.max x l')
  end.

(** ['size'] *)
Definition size {R} (g : list R) : result cell :=
  Return (Int (Z.of_nat (length g))).

(** An int64 of numpy: a sum that leaves the range wraps around, silently. *)
Definition int64 (z : Z) : Z := ((z + 2 ^ 63) mod 2 ^ 64 - 2 ^ 63)%Z.

(** ['sum'], nulls skipped, of a column of integers.  pandas adds the cells
    as int64, with wrap-around.  (A column that held a NULL when it was read
    is a float64 column even after [dropna]; its sum is the same number as
    long as the absolute values add up to less than [2 ^ 53], the range in
    which float64 is exact, and the theorems on sums stay in that range.) *)
Definition sum {R} (col : R → option Z) (g : list R) : result cell :=
  Return (Int (int64 (sum_list (omap col g)))).

(** ['max'], nulls skipped, null for a group of nulls *)
Definition max {R} (col : R → option Z) (g : list R) : result cell :=
  Return (to_cell (max_list (omap col g))).

(** ['first']: the first non-null value of the group *)
Definition first {R A} `{ToCell A} (col : R → option A) (g : list R) : result cell :=
  Return (to_cell (head (omap col g))).

Definition count_of {A} `{EqDecision A} (v : A) (l : list A) : nat :=
  length (filter (λ x, x = v) l).

Definition max_count {A} `{EqDecision A} (l : list A) : nat :=
  foldr Nat.max 0 ((λ v, count_of v l) <$> l).

(** [pd.Series.mode(x)]: the most frequent non-null values of the series,
    each once, in ascending order ([np.sort] of the modes); empty when the
    series has no non-null value. *)
Definition mode {A} `{EqDecision A, Ord A} (x : list (option A)) : list A :=
  let vals := omap id x in
  isort leb (remove_dups (filter (λ v, count_of v vals = max_count vals) vals)).

(** [s[0]] on the fresh [RangeIndex] of a series: [KeyError] when empty. *)
Definition getitem0 {A} (s : list A) : result A :=
  match s with
  | [] => Raise KeyError
  | a :: _ => Return a
  end.

(** *** Frames with named columns *)

(** A frame as an aggregation returns it: the name of the index, the
    column names in order, and for every row its index label and its
    cells in column order. *)
Record DataFrame := {
  index_name : option string;
  columns : list string;
  rows : list (cell * list cell) }.

Definition position (c : string) (cols : list string) : option nat :=
  fst <$> list_find (λ x, x = c) cols.

(** The cell of row [r] in column [c]. *)
Definition loc (df : DataFrame) (c : string) (r : cell * list cell) : cell :=
  default NaN (position c (columns df) ≫= λ i, r.2 !! i).

(** [gb.agg({name: f, ...})]: one row per group and one column per entry
    of the dict, in the order of the dict.  With [as_index=False] the
    group key is the first column and the index is a fresh [RangeIndex];
    otherwise the group key is the index.  An aggregation that raises
    makes [agg] raise. *)
Definition agg {K R} `{ToCell K} (gb : GroupBy K R)
    (spec : list (string * (list R → result cell))) : result DataFrame :=
  body ← mapM (λ g, vs ← mapM (λ f, f.2 g.2) spec; mret (to_cell g.1, vs)) (groups gb);
  mret (if as_index gb
        then {| index_name := Some (by_name gb);
                columns := spec.*1;
                rows := body |}
        else {| index_name := None;
                columns := by_name gb :: spec.*1;
                rows := imap (λ i r, (Int (Z.of_nat i), r.1 :: r.2)) body |}).

(** [df.rename(columns={old: new, ...})] *)
Definition rename (df : DataFrame) (m : list (string * string)) : DataFrame :=
  {| index_name := index_name df;
     columns := (λ c, default c ((λ x, x.2.2) <$> list_find (λ p, p.1 = c) m))
                  <$> columns df;
     rows := rows df |}.

(** Ascending order of cells, nulls last ([na_position='last']).  A column
    never mixes numbers and strings; the order between the two is only
    there to make the comparison total. *)
Definition cell_leb (a b : cell) : bool :=
  match a, b with
  | _, NaN => true
  | NaN, _ => false
  | Int x, Int y => (x <=? y)%Z
  | Str x, Str y => String.leb x y
  | Int _, Str _ => true
  | Str _, Int _ => false
  end.

(** Descending order of cells, nulls still last. *)
Definition cell_geb (a b : cell) : bool :=
  match a, b with
  | _, NaN => true
  | NaN, _ => false
  | _, _ => cell_leb b a
  end.

(** Lexicographic comparison of two rows on a list of keys. *)
Fixpoint lex_leb {A} (cmp : cell → cell → bool) (keys : list (A → cell)) (a b : A) : bool :=
  match keys with
  | [] => true
  | k :: ks => if bool_decide (k a = k b) then lex_leb cmp ks a b else cmp (k a) (k b)
  end.

(** [df.sort_values(by, ascending=b)].  On one column pandas sorts with
    numpy's quicksort (the sorter [S]); on several it uses a stable
    lexicographic sort.  A name that is no column is a [KeyError]. *)
Definition sort_values (S : Sorter) (df : DataFrame) (by_ : list string)
    (ascending : bool) : result DataFrame :=
  if forallb (λ c, bool_decide (c ∈ columns df)) by_ then
    let cmp := if ascending then cell_leb else cell_geb in
    Return {| index_name := index_name df;
              columns := columns df;
              rows := match by_ with
                      | [c] => sort S (λ a b, cmp (loc df c a) (loc df c b)) (rows df)
                      | _ => isort (lex_leb cmp (loc df <$> by_)) (rows df)
                      end |}
  else Raise KeyError.

(** [df.sort_values(col)] on a typed frame: one column, ascending, nulls
    last, numpy's quicksort. *)
Definition opt_leb {K} `{Ord K} (a b : option K) : bool :=
  match a, b with
  | _, None => true
  | None, Some _ => false
  | Some x, Some y => leb x y
  end.

Definition sort_values_col {R K} `{Ord K} (S : Sorter) (df : list R)
    (col : R → option K) : list R :=
  sort S (λ a b, opt_leb (col a) (col b)) df.

(** [pd.merge(left, right, on=name, how='left')] where [name] is the name
    of the index of both frames: the index is kept, the columns of [right]
    follow those of [left].  (The two frames are assumed to share no
    column name; pandas would suffix common names.) *)
Definition merge_index_left (left right : DataFrame) (on : string) : result DataFrame :=
  if bool_decide (index_name left = Some on ∧ index_name right = Some on) then
    Return {| index_name := Some on;
              columns := (columns left ++ columns right)%list;
              rows := r ← rows left;
                      match filter (λ q, q.1 = r.1) (rows right) with
                      | [] => [(r.1, (r.2 ++ replicate (length (columns right)) NaN)%list)]
                      | ms => (λ q, (r.1, (r.2 ++ q.2)%list)) <$> ms
                      end |}
  else Raise KeyError.

(** *** Writing *)

(** The content of a CSV file: the header and the lines, cell by cell. *)
Record Csv := {
  header : list string;
  lines : list (list cell) }.

#[global] Instance Csv_eq_dec : EqDecision Csv.
Proof. solve_decision. Defined.

(** [df.to_csv(filename, columns=cols)], as far as the content goes: the
    index is written as the leftmost column, under its name (or an empty
    name), then the selected columns, or all of them when none is given. *)
Definition to_csv (df : DataFrame) (cols : option (list string)) : result Csv :=
  match cols with
  | None =>
      Return {| header := default "" (index_name df) :: columns df;
                lines := (λ r, r.1 :: r.2) <$> rows df |}
  | Some cols =>
      if forallb (λ c, bool_decide (c ∈ columns df)) cols then
        Return {| header := default "" (index_name df) :: cols;
                  lines := (λ r, r.1 :: ((λ c, loc df c r) <$> cols)) <$> rows df |}
      else Raise KeyError
  end.

(** Comparisons of a column with a scalar, as boolean masks: a null
    compares false. *)
Definition ge (a : option Z) (b : Z) : bool :=
  match a with Some x => (b <=? x)%Z | None => false end.
Definition le (a : option Z) (b : Z) : bool :=
  match a with Some x => (x <=? b)%Z | None => false end.

(** [df[mask]] *)
Definition getitem_mask {R} (df : list R) (mask : R → bool) : list R :=
  filter (λ r, mask r = true) df.

End pd.

(** ** The world of a report: the database and the file system *)

(** The tables, each present or not. *)
Record Database := {
  Sales : option (list Sale.row);
  Vehicles : option (list Vehicle.row);
  Invoices : option (list Invoice.row);
  Vehicle_models : option (list VehicleModel.row);
  Customers : option (list Customer.row) }.

(** [con] is [self.con]: [__init__] sets it only when the database file
    exists.  [files] maps a path to what was last written there.  A path of
    [unwritable] cannot be opened for writing (a directory, a missing
    parent, a permission): the write fails before a byte is written.  A
    write that fails half-way (a full disk) and leaves a partial file is not
    modelled. *)
Record World := {
  con : option Database;
  files : gmap string pd.Csv;
  unwritable : gset string }.

(** A method of [ReportGenerator]: it runs in a world, returns or raises,
    and leaves a world. *)
Definition M (A : Type) : Type := World → result A * World.

#[global] Instance M_ret : MRet M := λ A a w, (Return a, w).
#[global] Instance M_bind : MBind M := λ A B f m w,
  match m w with
  | (Return a, w') => f a w'
  | (Raise e, w') => (Raise e, w')
  end.

Definition lift {A} (r : result A) : M A := λ w, (r, w).

(** [try: body except Exception as ex: handler] *)
Definition try_except {A} (body : M A) (handler : exn → M A) : M A := λ w,
  match body w with
  | (Return a, w') => (Return a, w')
  | (Raise e, w') => handler e w'
  end.

(** [pd.read_sql_query("SELECT * FROM t", self.con)] *)
Definition read_sql_query {T} (t : Database → option (list T)) : M (list T) := λ w,
  match con w with
  | None => (Raise AttributeError, w)
  | Some db =>
      match t db with
      | None => (Raise DatabaseError, w)
      | Some rows => (Return rows, w)
      end
  end.

(** [df.to_csv(filename, columns=cols)] with its effect: the file holds the
    content when the write succeeds.  The two failures modelled, a column
    that the frame does not have and a path that cannot be opened, happen
    before a byte is written and leave the file as it was. *)
Definition to_csv (df : pd.DataFrame) (filename : string) (cols : option (list string))
  : M unit := λ w,
  match pd.to_csv df cols with
  | Raise e => (Raise e, w)
  | Return c =>
      if bool_decide (filename ∈ unwritable w) then (Raise OSError, w)
      else (Return (), {| con := con w;
                          files := <[filename := c]> (files w);
                          unwritable := unwritable w |})
  end.

(** ** Columns of the merged frames *)

(** A row of [Sales ⋈ X ⋈ Vehicles ⋈ Vehicle_models], where [X] is
    [Invoices] or [Customers]: the vehicle and the model are absent when the
    left join found none. *)
Definition merged (X : Type) : Type :=
  Sale.row * X * option Vehicle.row * option VehicleModel.row.

Section Columns.
Context {X : Type}.
Implicit Types r : merged X.

Definition customer_id r : option Z := Sale.customer_id r.1.1.1.
Definition sale_dt r : option Z := Sale.sale_dt r.1.1.1.
Definition vehicle_model_id (r : Sale.row * X * option Vehicle.row) : option Z :=
  r.2 ≫= Vehicle.vehicle_model_id.
Definition vehicle_year r : option Z := r.1.2 ≫= Vehicle.vehicle_year.
Definition brand_name r : option string := r.2 ≫= VehicleModel.brand_name.
Definition model_name r : option string := r.2 ≫= VehicleModel.model_name.
End Columns.

Definition price (r : merged Invoice.row) : option Z := Invoice.price r.1.1.2.
Definition customer_name (r : merged Customer.row) : option string :=
  Customer.customer_name r.1.1.2.

(** ** ReportGenerator *)

Section ReportGenerator.
Context (S : Sorter).

Definition __to_csv (df : pd.DataFrame) (filename : string)
    (columns : option (list string)) : M Z :=
  try_except
    (match columns with
     | Some ((_ :: _) as cols) => to_csv df filename (Some cols)
     | _ => to_csv df filename None
     end ;; mret 0%Z)
    (λ ex, mret 1%Z).

(** *** sales_by_brand *)

(** The joins by foreign keys. *)
Definition sales_merge (sales : list Sale.row) (vehicles : list Vehicle.row)
    (invoices : list Invoice.row) (vehicle_models : list VehicleModel.row)
  : list (merged Invoice.row) :=
  pd.merge_left
    (pd.merge_left
       (pd.merge sales invoices Sale.invoice_id Invoice.invoice_id)
       vehicles (λ r, Sale.vehicle_id r.1) Vehicle.vehicle_id)
    vehicle_models vehicle_model_id VehicleModel.vehicle_model_id.

(** The frame before the grouping: the joins, then the rows without nulls. *)
Definition sales_by_brand_rows (sales : list Sale.row) (vehicles : list Vehicle.row)
    (invoices : list Invoice.row) (vehicle_models : list VehicleModel.row)
  : list (merged Invoice.row) :=
  let df := sales_merge sales vehicles invoices vehicle_models in
  if existsb pd.isnull df then pd.dropna df else df.

Definition sales_by_brand_frame (sales : list Sale.row) (vehicles : list Vehicle.row)
    (invoices : list Invoice.row) (vehicle_models : list VehicleModel.row)
  : result pd.DataFrame :=
  let df := sales_by_brand_rows sales vehicles invoices vehicle_models in
  df ← pd.agg (pd.groupby df "brand_name" brand_name false)
              [("sale_id", pd.size); ("price", pd.sum price)];
  let df := pd.rename df [("brand_name", "vehicle_brand");
                          ("sale_id", "n_sales");
                          ("price", "total_value")] in
  pd.sort_values S df ["n_sales"; "total_value"] false.

Definition sales_by_brand (filename : string) : M Z :=
  sales ← read_sql_query Sales;
  vehicles ← read_sql_query Vehicles;
  invoices ← read_sql_query Invoices;
  vehicle_models ← read_sql_query Vehicle_models;
  df ← lift (sales_by_brand_frame sales vehicles invoices vehicle_models);
  __to_csv df filename None.

(** *** new_customers, old_customers *)

(** The joins and the null drop the three customer reports start from. *)
Definition customers_merge (sales : list Sale.row) (vehicles : list Vehicle.row)
    (vehicle_models : list VehicleModel.row) (customers : list Customer.row)
  : list (merged Customer.row) :=
  pd.merge_left
    (pd.merge_left
       (pd.merge sales customers Sale.customer_id Customer.customer_id)
       vehicles (λ r, Sale.vehicle_id r.1) Vehicle.vehicle_id)
    vehicle_models vehicle_model_id VehicleModel.vehicle_model_id.

Definition customers_rows (sales : list Sale.row) (vehicles : list Vehicle.row)
    (vehicle_models : list VehicleModel.row) (customers : list Customer.row)
  : list (merged Customer.row) :=
  let df := customers_merge sales vehicles vehicle_models customers in
  if existsb pd.isnull df then pd.dropna df else df.

(** What [new_customers] and [old_customers] do after the date filter. *)
Definition last_purchase (df : list (merged Customer.row)) : result pd.DataFrame :=
  df ← pd.agg (pd.groupby df "customer_id" customer_id false)
              [("sale_dt", pd.max sale_dt);
               ("customer_name", pd.first customer_name);
               ("brand_name", pd.first brand_name);
               ("model_name", pd.first model_name);
               ("vehicle_year", pd.first vehicle_year)];
  let df := pd.rename df [("brand_name", "vehicle_brand");
                          ("model_name", "vehicle_model")] in
  pd.sort_values S df ["customer_name"] true.

Definition report_columns : list string :=
  ["customer_name"; "vehicle_brand"; "vehicle_model"; "vehicle_year"; "sale_dt"].

Definition new_customers_rows (sales : list Sale.row) (vehicles : list Vehicle.row)
    (vehicle_models : list VehicleModel.row) (customers : list Customer.row)
  : list (merged Customer.row) :=
  let df := customers_rows sales vehicles vehicle_models customers in
  pd.getitem_mask df (λ r, pd.ge (sale_dt r) (datetime 2020 1 1)).

Definition new_customers_frame (sales : list Sale.row) (vehicles : list Vehicle.row)
    (vehicle_models : list VehicleModel.row) (customers : list Customer.row)
  : result pd.DataFrame :=
  last_purchase (new_customers_rows sales vehicles vehicle_models customers).

Definition new_customers (filename : string) : M Z :=
  sales ← read_sql_query Sales;
  vehicles ← read_sql_query Vehicles;
  vehicle_models ← read_sql_query Vehicle_models;
  customers ← read_sql_query Customers;
  df ← lift (new_customers_frame sales vehicles vehicle_models customers);
  __to_csv df filename (Some report_columns).

Definition old_customers_rows (sales : list Sale.row) (vehicles : list Vehicle.row)
    (vehicle_models : list VehicleModel.row) (customers : list Customer.row)
  : list (merged Customer.row) :=
  let df := customers_rows sales vehicles vehicle_models customers in
  pd.getitem_mask df (λ r, pd.le (sale_dt r) (datetime 2016 1 1)).

Definition old_customers_frame (sales : list Sale.row) (vehicles : list Vehicle.row)
    (vehicle_models : list VehicleModel.row) (customers : list Customer.row)
  : result pd.DataFrame :=
  last_purchase (old_customers_rows sales vehicles vehicle_models customers).

Definition old_customers (filename : string) : M Z :=
  sales ← read_sql_query Sales;
  vehicles ← read_sql_query Vehicles;
  vehicle_models ← read_sql_query Vehicle_models;
  customers ← read_sql_query Customers;
  df ← lift (old_customers_frame sales vehicles vehicle_models customers);
  __to_csv df filename (Some report_columns).

(** *** next_vehicle *)

(** The rows of the customers with more than one row of the merge,
    sorted by [sale_dt].  No null drop here. *)
Definition next_vehicle_rows (sales : list Sale.row) (vehicles : list Vehicle.row)
    (vehicle_models : list VehicleModel.row) (customers : list Customer.row)
  : list (merged Customer.row) :=
  let df := customers_merge sales vehicles vehicle_models customers in
  let customers_id := pd.size_series (pd.groupby df "customer_id" customer_id true) in
  let customers_id := filter (λ c, 1 < c.2) customers_id in
  let df := pd.isin df customer_id customers_id.*1 in
  pd.sort_values_col S df sale_dt.

Definition next_vehicle_frame (sales : list Sale.row) (vehicles : list Vehicle.row)
    (vehicle_models : list VehicleModel.row) (customers : list Customer.row)
  : result pd.DataFrame :=
  let df := next_vehicle_rows sales vehicles vehicle_models customers in
  df_ ← pd.agg (pd.groupby df "customer_id" customer_id true)
               [("brand_name", λ x, Str <$> pd.getitem0 (pd.mode (brand_name <$> x)))];
  let df_ := pd.rename df_ [("brand_name", "most_common_second_veh_brand")] in
  first ← pd.agg (pd.groupby df "customer_id" customer_id true)
                 [("brand_name", pd.first brand_name)];
  let first := pd.rename first [("brand_name", "first_veh_brand")] in
  df_ ← pd.merge_index_left df_ first "customer_id";
  pd.sort_values S df_ ["first_veh_brand"] true.

Definition next_vehicle (filename : string) : M Z :=
  sales ← read_sql_query Sales;
  vehicles ← read_sql_query Vehicles;
  vehicle_models ← read_sql_query Vehicle_models;
  customers ← read_sql_query Customers;
  df_ ← lift (next_vehicle_frame sales vehicles vehicle_models customers);
  __to_csv df_ filename None.

End ReportGenerator.

(** ** Insertion sort as a sorter *)

Section InsertionSort.
Context {A : Type} (le : A → A → bool).

Lemma insert_sorted_perm x l : insert_sorted le x l ≡ₚ x :: l.
Proof.
  induction l as [|y l IH]; simpl; [done|].
  destruct (le x y); [done|].
  rewrite IH. apply perm_swap.
Qed.

Lemma isort_perm l : isort le l ≡ₚ l.
Proof.
  induction l as [|x l IH]; simpl; [done|].
  by rewrite insert_sorted_perm, IH.
Qed.

Hypothesis le_total : ∀ a b, le a b = false → le b a = true.

Lemma insert_sorted_sorted x l :
  Sorted (λ a b, le a b = true) l →
  Sorted (λ a b, le a b = true) (insert_sorted le x l).
Proof.
  induction 1 as [|y l Hs IH Hhd]; simpl.
  - repeat constructor.
  - destruct (le x y) eqn:E.
    + constructor; [by constructor|by constructor].
    + constructor; [done|].
      destruct Hhd as [|z l Hyz]; simpl.
      * constructor. by apply le_total.
      * destruct (le x z); constructor; [by apply le_total|done].
Qed.

Lemma isort_sorted l : Sorted (λ a b, le a b = true) (isort le l).
Proof.
  induction l as [|x l IH]; simpl; [constructor|].
  by apply insert_sorted_sorted.
Qed.
End InsertionSort.

(** The stable sorter; numpy's quicksort is this one on short arrays. *)
Definition stable : Sorter :=
  {| sort := λ A, isort;
     sort_perm := λ A, isort_perm;
     sort_sorted := λ A le l tot _, isort_sorted le tot l |}.

(** ** A small database *)

Module Example.
Local Open Scope Z_scope.

Definition sale (id inv cust veh dt : Z) : Sale.row :=
  Sale.mk (Some id) (Some inv) (Some cust) (Some veh) (Some dt).

(** Alice (1) buys a Toyota in June 2020 and a Honda in March 2021; Bob
    (2) buys a Ford in 2014 and a Toyota in 2015; Carol (3) buys one
    Honda, on 2020-01-01; Dave (4) buys one Ford, on 2016-01-01. *)
Definition sales : list Sale.row :=
  [ sale 1 1 1 1 (datetime 2020 6 1);
    sale 2 2 1 2 (datetime 2021 3 1);
    sale 3 3 2 3 (datetime 2014 2 1);
    sale 4 4 2 4 (datetime 2015 7 1);
    sale 5 5 3 5 (datetime 2020 1 1);
    sale 6 6 4 6 (datetime 2016 1 1) ].

Definition invoices : list Invoice.row :=
  [ Invoice.mk (Some 1) (Some 20000); Invoice.mk (Some 2) (Some 25000);
    Invoice.mk (Some 3) (Some 15000); Invoice.mk (Some 4) (Some 12000);
    Invoice.mk (Some 5) (Some 22000); Invoice.mk (Some 6) (Some 17000) ].

Definition vehicles : list Vehicle.row :=
  [ Vehicle.mk (Some 1) (Some 1) (Some 2020); Vehicle.mk (Some 2) (Some 2) (Some 2021);
    Vehicle.mk (Some 3) (Some 3) (Some 2013); Vehicle.mk (Some 4) (Some 4) (Some 2015);
    Vehicle.mk (Some 5) (Some 2) (Some 2019); Vehicle.mk (Some 6) (Some 3) (Some 2015) ].

Definition vehicle_models : list VehicleModel.row :=
  [ VehicleModel.mk (Some 1) (Some "Toyota") (Some "Corolla");
    VehicleModel.mk (Some 2) (Some "Honda") (Some "Civic");
    VehicleModel.mk (Some 3) (Some "Ford") (Some "Focus");
    VehicleModel.mk (Some 4) (Some "Toyota") (Some "Yaris") ].

Definition customers : list Customer.row :=
  [ Customer.mk (Some 1) (Some "Alice"); Customer.mk (Some 2) (Some "Bob");
    Customer.mk (Some 3) (Some "Carol"); Customer.mk (Some 4) (Some "Dave") ].

Definition db : Database :=
  {| Sales := Some sales; Vehicles := Some vehicles; Invoices := Some invoices;
     Vehicle_models := Some vehicle_models; Customers := Some customers |}.

Definition world : World :=
  {| con := Some db; files := ∅; unwritable := {["/proc/report.csv"]} |}.

(** Erin (5) buys twice, both times a vehicle that is not in [Vehicles]. *)
Definition sales_unmatched : list Sale.row :=
  [ sale 7 7 5 98 (datetime 2018 1 1); sale 8 8 5 99 (datetime 2019 1 1) ].

Definition customers_erin : list Customer.row := [ Customer.mk (Some 5) (Some "Erin") ].

Definition db_unmatched : Database :=
  {| Sales := Some sales_unmatched; Vehicles := Some vehicles; Invoices := Some invoices;
     Vehicle_models := Some vehicle_models; Customers := Some customers_erin |}.

Definition world_unmatched : World :=
  {| con := Some db_unmatched; files := ∅; unwritable := ∅ |}.

(** Carol's purchase, dated on the bound of [new_customers], and Dave's,
    dated on the bound of [old_customers], as rows of the joins. *)
Definition carol_row : merged Customer.row :=
  (sale 5 5 3 5 (datetime 2020 1 1), Customer.mk (Some 3) (Some "Carol"),
   Some (Vehicle.mk (Some 5) (Some 2) (Some 2019)),
   Some (VehicleModel.mk (Some 2) (Some "Honda") (Some "Civic"))).

Definition dave_row : merged Customer.row :=
  (sale 6 6 4 6 (datetime 2016 1 1), Customer.mk (Some 4) (Some "Dave"),
   Some (Vehicle.mk (Some 6) (Some 3) (Some 2015)),
   Some (VehicleModel.mk (Some 3) (Some "Ford") (Some "Focus"))).
End Example.

(** ** The four operations, as one *)

Inductive report := SalesByBrand | NewCustomers | OldCustomers | NextVehicle.

Definition run (S : Sorter) (r : report) : string → M Z :=
  match r with
  | SalesByBrand => sales_by_brand S
  | NewCustomers => new_customers S
  | OldCustomers => old_customers S
  | NextVehicle => next_vehicle S
  end.

(** The frame a report computes from the tables it reads. *)
Definition frame (S : Sorter) (r : report) (sales : list Sale.row)
    (vehicles : list Vehicle.row) (invoices : list Invoice.row)
    (vehicle_models : list VehicleModel.row) (customers : list Customer.row)
  : result pd.DataFrame :=
  match r with
  | SalesByBrand => sales_by_brand_frame S sales vehicles invoices vehicle_models
  | NewCustomers => new_customers_frame S sales vehicles vehicle_models customers
  | OldCustomers => old_customers_frame S sales vehicles vehicle_models customers
  | NextVehicle => next_vehicle_frame S sales vehicles vehicle_models customers
  end.

(** The [columns] argument a report gives to [__to_csv]. *)
Definition csv_columns (r : report) : option (list string) :=
  match r with
  | NewCustomers | OldCustomers => Some report_columns
  | SalesByBrand | NextVehicle => None
  end.

(** A table the report reads is not in the database. *)
Definition missing_table (r : report) (db : Database) : Prop :=
  Sales db = None ∨ Vehicles db = None ∨ Vehicle_models db = None ∨
  match r with
  | SalesByBrand => Invoices db = None
  | _ => Customers db = None
  end.

(** The world after [c] was written to [filename]. *)
Definition written (w : World) (filename : string) (c : pd.Csv) : World :=
  {| con := con w; files := <[filename := c]> (files w); unwritable := unwritable w |}.

(** ** Facts about the pandas fragment *)

Lemma bind_Return_inv {A B} (m : result A) (f : A → result B) b :
  m ≫= f = Return b → ∃ a, m = Return a ∧ f a = Return b.
Proof. destruct m as [a|e]; [by exists a|done]. Qed.

Section ResultFacts.
Context {A B : Type}.

Lemma mapM_Return (f : A → result B) (h : A → B) l :
  (∀ a, a ∈ l → f a = Return (h a)) → mapM f l = Return (h <$> l).
Proof.
  induction l as [|x l IH]; intros Hf; [done|].
  simpl. rewrite (Hf x) by left. simpl.
  rewrite IH by (intros; apply Hf; by right). done.
Qed.

Lemma mapM_Return_inv (f : A → result B) l k :
  mapM f l = Return k → Forall2 (λ a b, f a = Return b) l k.
Proof.
  revert k. induction l as [|x l IH]; intros k; simpl.
  - intros [= <-]. constructor.
  - intros (y & Hy & H)%bind_Return_inv.
    apply bind_Return_inv in H as (k' & Hk' & [= <-]).
    constructor; [done|by apply IH].
Qed.

(** When every failure is the same exception, one failing element makes
    the whole [mapM] fail with it. *)
Lemma mapM_Raise (f : A → result B) e l x :
  (∀ a e', f a = Raise e' → e' = e) → x ∈ l → f x = Raise e → mapM f l = Raise e.
Proof.
  intros He. induction l as [|y l IH]; [by intros ?%elem_of_nil|].
  intros [->|Hx]%elem_of_cons Hfx; simpl.
  - by rewrite Hfx.
  - destruct (f y) as [b|e'] eqn:Hy; simpl.
    + by rewrite IH.
    + by rewrite (He _ _ Hy).
Qed.
End ResultFacts.

Section FrameFacts.
Import pd.

Lemma agg_inv {K R} `{ToCell K} (gb : GroupBy K R) spec fr :
  agg gb spec = Return fr →
  ∃ body,
    Forall2 (λ g r, r.1 = to_cell g.1 ∧
                    Forall2 (λ f v, f.2 g.2 = Return v) spec r.2) (groups gb) body ∧
    fr = if as_index gb
         then {| index_name := Some (by_name gb); columns := spec.*1; rows := body |}
         else {| index_name := None; columns := by_name gb :: spec.*1;
                 rows := imap (λ i r, (Int (Z.of_nat i), r.1 :: r.2)) body |}.
Proof.
  unfold agg. intros (body & Hb & [= <-])%bind_Return_inv.
  exists body. split; [|done].
  apply mapM_Return_inv in Hb.
  eapply Forall2_impl; [exact Hb|]. simpl.
  intros g r (vs & Hvs & [= <-])%bind_Return_inv. split; [done|].
  by apply mapM_Return_inv in Hvs.
Qed.

Lemma sort_values_inv S df by_ asc fr :
  sort_values S df by_ asc = Return fr →
  index_name fr = index_name df ∧ columns fr = columns df ∧ rows fr ≡ₚ rows df.
Proof.
  unfold sort_values. destruct (forallb _ _); [|done]. intros [= <-]. simpl.
  do 2 (split; [done|]).
  destruct by_ as [|c [|c' by_]]; [apply isort_perm|apply sort_perm|apply isort_perm].
Qed.

Lemma forallb_columns (cols by_ : list string) :
  Forall (λ c, c ∈ cols) by_ → forallb (λ c, bool_decide (c ∈ cols)) by_ = true.
Proof.
  induction 1 as [|c by_ Hc _ IH]; simpl; [done|].
  by rewrite bool_decide_eq_true_2, IH.
Qed.

Lemma sort_values_Return S df by_ asc :
  Forall (λ c, c ∈ columns df) by_ → ∃ fr, sort_values S df by_ asc = Return fr.
Proof.
  intros Hby. unfold sort_values. rewrite forallb_columns by done. eauto.
Qed.
End FrameFacts.

Section AggFacts.
Import pd.

(** An aggregation none of whose functions raises. *)
Lemma agg_total {K R} `{ToCell K} (gb : GroupBy K R) spec (h : list R → list cell) :
  (∀ g, mapM (λ f : string * (list R → result cell), f.2 g) spec = Return (h g)) →
  agg gb spec =
    Return (if as_index gb
            then {| index_name := Some (by_name gb); columns := spec.*1;
                    rows := (λ g, (to_cell g.1, h g.2)) <$> groups gb |}
            else {| index_name := None; columns := by_name gb :: spec.*1;
                    rows := imap (λ i r, (Int (Z.of_nat i), r.1 :: r.2))
                              ((λ g, (to_cell g.1, h g.2)) <$> groups gb) |}).
Proof.
  intros Hh. unfold agg.
  rewrite (mapM_Return _ (λ g, (to_cell g.1, h g.2))); [done|].
  intros g _. by rewrite Hh.
Qed.

(** The cells [last_purchase] computes for one customer. *)
Definition purchase_cells (g : list (merged Customer.row)) : list cell :=
  [ to_cell (max_list (omap sale_dt g));
    to_cell (head (omap customer_name g));
    to_cell (head (omap brand_name g));
    to_cell (head (omap model_name g));
    to_cell (head (omap vehicle_year g)) ].

Definition purchase_columns : list string :=
  ["customer_id"; "sale_dt"; "customer_name"; "vehicle_brand"; "vehicle_model";
   "vehicle_year"].

Lemma last_purchase_spec S df :
  ∃ fr, last_purchase S df = Return fr ∧
        index_name fr = None ∧
        columns fr = purchase_columns ∧
        rows fr ≡ₚ imap (λ i r, (Int (Z.of_nat i), r.1 :: r.2))
                     ((λ g, (Int g.1, purchase_cells g.2))
                        <$> groups (groupby df "customer_id" customer_id false)).
Proof.
  unfold last_purchase.
  rewrite (agg_total _ _ purchase_cells) by done. simpl.
  match goal with |- context [sort_values S ?d ?b ?a] =>
    destruct (sort_values_Return S d b a) as [fr Hfr] end.
  { repeat constructor. }
  exists fr. split; [done|].
  apply sort_values_inv in Hfr as (? & ? & ?). done.
Qed.
End AggFacts.

(** ** Facts about reading and writing *)

Section Serialising.
Context (S : Sorter).

Lemma to_csv_unfold df f cols w :
  __to_csv df f cols w =
    match pd.to_csv df (match cols with Some [] => None | _ => cols end) with
    | Raise _ => (Return 1%Z, w)
    | Return c => if bool_decide (f ∈ unwritable w) then (Return 1%Z, w)
                  else (Return 0%Z, written w f c)
    end.
Proof.
  unfold __to_csv, try_except, to_csv, mbind, M_bind, mret, M_ret, written.
  destruct cols as [[|x cols]|]; destruct (pd.to_csv _ _); try done;
    by destruct (bool_decide _).
Qed.

(** The frame of a report can always be serialised: the columns that
    [new_customers] and [old_customers] select are columns of the frame. *)
Lemma to_csv_frame r s v i m c df :
  frame S r s v i m c = Return df → ∃ csv, pd.to_csv df (csv_columns r) = Return csv.
Proof.
  assert (Hlast : ∀ rows, last_purchase S rows = Return df →
                          ∃ csv, pd.to_csv df (Some report_columns) = Return csv).
  { intros rows Hdf. destruct (last_purchase_spec S rows) as (fr & Hfr & _ & Hcols & _).
    rewrite Hfr in Hdf. injection Hdf as ->. unfold pd.to_csv. rewrite Hcols.
    rewrite forallb_columns; [eauto|]. unfold purchase_columns, report_columns.
    repeat constructor. }
  destruct r; simpl; [by eauto|apply Hlast|apply Hlast|by eauto].
Qed.

(** The tables [r] reads are in [db], with these rows. *)
Definition reads (r : report) (db : Database) (s : list Sale.row) (v : list Vehicle.row)
    (i : list Invoice.row) (m : list VehicleModel.row) (c : list Customer.row) : Prop :=
  Sales db = Some s ∧ Vehicles db = Some v ∧ Vehicle_models db = Some m ∧
  match r with
  | SalesByBrand => Invoices db = Some i
  | _ => Customers db = Some c
  end.

Lemma run_reads r f w db s v i m c :
  con w = Some db → reads r db s v i m c →
  run S r f w = (lift (frame S r s v i m c) ≫= λ df, __to_csv df f (csv_columns r)) w.
Proof.
  intros Hcon (Hs & Hv & Hm & Hx).
  destruct r; simpl; unfold sales_by_brand, new_customers, old_customers, next_vehicle;
    unfold mbind, M_bind, read_sql_query;
    repeat (first [rewrite Hcon|rewrite Hs|rewrite Hv|rewrite Hm|rewrite Hx];
            cbv beta iota); done.
Qed.
(** A report that returns has read its tables, computed its frame and
    called [__to_csv] on it. *)
Lemma run_Return_inv r f w code w' :
  run S r f w = (Return code, w') →
  ∃ db s v i m c fr,
    con w = Some db ∧ reads r db s v i m c ∧ frame S r s v i m c = Return fr ∧
    __to_csv fr f (csv_columns r) w = (Return code, w').
Proof.
  intros Hrun. destruct (con w) as [db|] eqn:Hcon.
  - destruct (Sales db) as [s|] eqn:Hs, (Vehicles db) as [v|] eqn:Hv,
      (Vehicle_models db) as [m|] eqn:Hm;
      try (exfalso; revert Hrun; destruct r; simpl;
           unfold sales_by_brand, new_customers, old_customers, next_vehicle;
           unfold mbind, M_bind, read_sql_query;
           repeat (first [rewrite Hcon|rewrite Hs|rewrite Hv|rewrite Hm];
                   cbv beta iota);
           repeat (match goal with
                   | |- context [match ?t db with _ => _ end] =>
                       destruct (t db); cbv beta iota; rewrite ?Hcon; cbv beta iota
                   end); done).
    assert (Hx : ∃ i c, reads r db s v i m c ∨
                        run S r f w = (Raise DatabaseError, w)).
    { destruct r; simpl.
      - destruct (Invoices db) as [i|] eqn:Hi.
        + exists i, []. left. by repeat split.
        + exists [], []. right. unfold sales_by_brand, mbind, M_bind, read_sql_query.
          repeat (first [rewrite Hcon|rewrite Hs|rewrite Hv|rewrite Hi]; cbv beta iota).
          done.
      - destruct (Customers db) as [c|] eqn:Hc.
        + exists [], c. left. by repeat split.
        + exists [], []. right. unfold new_customers, mbind, M_bind, read_sql_query.
          repeat (first [rewrite Hcon|rewrite Hs|rewrite Hv|rewrite Hm|rewrite Hc];
                  cbv beta iota).
          done.
      - destruct (Customers db) as [c|] eqn:Hc.
        + exists [], c. left. by repeat split.
        + exists [], []. right. unfold old_customers, mbind, M_bind, read_sql_query.
          repeat (first [rewrite Hcon|rewrite Hs|rewrite Hv|rewrite Hm|rewrite Hc];
                  cbv beta iota).
          done.
      - destruct (Customers db) as [c|] eqn:Hc.
        + exists [], c. left. by repeat split.
        + exists [], []. right. unfold next_vehicle, mbind, M_bind, read_sql_query.
          repeat (first [rewrite Hcon|rewrite Hs|rewrite Hv|rewrite Hm|rewrite Hc];
                  cbv beta iota).
          done. }
    destruct Hx as (i & c & [Hreads|Hraise]); [|congruence].
    rewrite (run_reads r f w db s v i m c Hcon Hreads) in Hrun.
    unfold mbind, M_bind, lift in Hrun.
    destruct (frame S r s v i m c) as [fr|e] eqn:Hfr; [|done].
    by exists db, s, v, i, m, c, fr.
  - exfalso. revert Hrun. destruct r; simpl;
      unfold sales_by_brand, new_customers, old_customers, next_vehicle;
      unfold mbind, M_bind, read_sql_query; by rewrite Hcon.
Qed.
End Serialising.



(** ** sales_by_brand *)

Section SalesByBrand.
Import pd.

Lemma cell_leb_total a b : cell_leb a b = false → cell_leb b a = true.
Proof.
  destruct a as [|x|x], b as [|y|y]; simpl; try done.
  - intros H. apply Z.leb_le. apply Z.leb_gt in H. lia.
  - intros H. destruct (String.leb_total x y) as [H'|H']; congruence.
Qed.

Lemma cell_geb_total a b : cell_geb a b = false → cell_geb b a = true.
Proof.
  destruct a as [|x|x], b as [|y|y]; simpl; try done.
  - intros H. apply Z.leb_le. apply Z.leb_gt in H. lia.
  - intros H. destruct (String.leb_total x y) as [H'|H']; congruence.
Qed.

Lemma lex_leb_total {A} (cmp : cell → cell → bool) (keys : list (A → cell)) :
  (∀ a b, cmp a b = false → cmp b a = true) →
  ∀ a b, lex_leb cmp keys a b = false → lex_leb cmp keys b a = true.
Proof.
  intros Hcmp a b. induction keys as [|k keys IH]; simpl; [done|].
  destruct (decide (k a = k b)) as [E|E].
  - rewrite !bool_decide_eq_true_2 by done. exact IH.
  - rewrite !bool_decide_eq_false_2 by done. apply Hcmp.
Qed.

Lemma sort_values_lex S df c c' by_ asc :
  Forall (λ c, c ∈ columns df) (c :: c' :: by_) →
  sort_values S df (c :: c' :: by_) asc =
    Return {| index_name := index_name df;
              columns := columns df;
              rows := isort (lex_leb (if asc then cell_leb else cell_geb)
                               (loc df <$> c :: c' :: by_)) (rows df) |}.
Proof. intros Hby. unfold sort_values. by rewrite forallb_columns. Qed.

Lemma Sorted_lookup {A} (R : A → A → Prop) l k a b :
  Sorted R l → l !! k = Some a → l !! S k = Some b → R a b.
Proof.
  intros Hs. revert k. induction Hs as [|x l Hs IH Hhd]; intros k; [done|].
  destruct k as [|k]; simpl.
  - intros [= ->] Hb. destruct Hhd as [|y l Hxy]; [done|].
    simpl in Hb. by injection Hb as ->.
  - apply IH.
Qed.

(** The cells [sales_by_brand] computes for one brand. *)
Definition brand_cells (g : list (merged Invoice.row)) : list cell :=
  [ Int (Z.of_nat (length g)); Int (int64 (sum_list (omap price g))) ].

Definition brand_columns : list string := ["vehicle_brand"; "n_sales"; "total_value"].

(** The groups of [sales_by_brand]. *)
Definition brand_groups (s : list Sale.row) (v : list Vehicle.row) (i : list Invoice.row)
    (m : list VehicleModel.row) : list (string * list (merged Invoice.row)) :=
  groups (groupby (sales_by_brand_rows s v i m) "brand_name" brand_name false).

Lemma sales_by_brand_spec S s v i m :
  ∃ fr, sales_by_brand_frame S s v i m = Return fr ∧
        index_name fr = None ∧
        columns fr = brand_columns ∧
        rows fr ≡ₚ imap (λ k r, (Int (Z.of_nat k), r.1 :: r.2))
                     ((λ g, (Str g.1, brand_cells g.2)) <$> brand_groups s v i m) ∧
        Sorted (λ a b, lex_leb cell_geb [loc fr "n_sales"; loc fr "total_value"] a b = true)
               (rows fr).
Proof.
  unfold sales_by_brand_frame.
  rewrite (agg_total _ _ brand_cells) by done.
  unfold mbind, result_bind. cbv beta iota zeta.
  rewrite sort_values_lex by repeat constructor.
  eexists. split; [reflexivity|].
  do 2 (split; [done|]). split; [apply isort_perm|].
  apply (isort_sorted (lex_leb cell_geb _)), lex_leb_total, cell_geb_total.
Qed.

Lemma loc_brand_row fr x c0 c1 c2 :
  columns fr = brand_columns →
  loc fr "vehicle_brand" (x, [c0; c1; c2]) = c0 ∧
  loc fr "n_sales" (x, [c0; c1; c2]) = c1 ∧
  loc fr "total_value" (x, [c0; c1; c2]) = c2.
Proof. intros Hc. unfold loc. rewrite Hc. done. Qed.

Lemma brand_row_shape S s v i m fr r :
  sales_by_brand_frame S s v i m = Return fr → r ∈ rows fr →
  ∃ k g, g ∈ brand_groups s v i m ∧
         r = (Int (Z.of_nat k), [Str g.1; Int (Z.of_nat (length g.2));
                                 Int (int64 (sum_list (omap price g.2)))]).
Proof.
  intros Hfr Hr. destruct (sales_by_brand_spec S s v i m) as (fr' & Hfr' & _ & _ & Hp & _).
  rewrite Hfr in Hfr'. injection Hfr' as <-.
  rewrite Hp in Hr. apply elem_of_lookup_imap in Hr as (k & y & -> & Hy).
  apply list_lookup_fmap_Some in Hy as (g & -> & Hg).
  exists k, g. split; [|done]. by eapply list_elem_of_lookup_2.
Qed.
End SalesByBrand.

(** ** Facts about groupby *)

Section GroupByFacts.
Import pd.
Context {R K : Type} `{EqDecision K, Ord K}.
Context (df : list R) (key : R → option K).

(** The keys of the groups, in group order. *)
Definition group_keys : list K := isort leb (remove_dups (omap key df)).

Lemma groups_groupby name b :
  groups (groupby df name key b)
  = (λ k, (k, filter (λ r, key r = Some k) df)) <$> group_keys.
Proof. done. Qed.

Lemma group_keys_NoDup : NoDup group_keys.
Proof. unfold group_keys. rewrite isort_perm. apply NoDup_remove_dups. Qed.

Lemma elem_of_group_keys k : k ∈ group_keys ↔ ∃ r, r ∈ df ∧ key r = Some k.
Proof.
  unfold group_keys. by rewrite isort_perm, elem_of_remove_dups, list_elem_of_omap.
Qed.

Lemma elem_of_groups name b g :
  g ∈ groups (groupby df name key b) ↔
  g.2 = filter (λ r, key r = Some g.1) df ∧ ∃ r, r ∈ df ∧ key r = Some g.1.
Proof.
  rewrite groups_groupby, list_elem_of_fmap. split.
  - intros (k & -> & Hk). by apply elem_of_group_keys in Hk.
  - intros [Hg Hk%elem_of_group_keys]. exists g.1. split; [|done].
    destruct g as [k rows]. simpl in *. by rewrite Hg.
Qed.

Lemma length_filter_key_cons k ks :
  k ∉ ks →
  length (filter (λ r, key r ∈ Some <$> k :: ks) df)
  = length (filter (λ r, key r = Some k) df) + length (filter (λ r, key r ∈ Some <$> ks) df).
Proof.
  intros Hk. induction df as [|r l IH]; [done|].
  rewrite !filter_cons.
  destruct (decide (key r = Some k)) as [E|E].
  - rewrite decide_True by (rewrite E; left).
    rewrite decide_False.
    { rewrite !length_cons, IH. done. }
    rewrite E. intros (k' & [= <-] & Hk')%list_elem_of_fmap. done.
  - destruct (decide (key r ∈ Some <$> ks)) as [E'|E'].
    + rewrite decide_True by (by right). rewrite !length_cons, IH. lia.
    + rewrite decide_False; [done|].
      rewrite fmap_cons. intros [?|?]%elem_of_cons; done.
Qed.

(** The groups partition the rows that have a key. *)
Lemma group_sizes_sum (ks : list K) :
  NoDup ks →
  sum_list ((λ k, Z.of_nat (length (filter (λ r, key r = Some k) df))) <$> ks)
  = Z.of_nat (length (filter (λ r, key r ∈ Some <$> ks) df)).
Proof.
  induction 1 as [|k ks Hk Hnd IH].
  - simpl. induction df as [|r l IHl]; [done|].
    rewrite filter_cons, decide_False; [done|]. by intros ?%elem_of_nil.
  - rewrite length_filter_key_cons, Nat2Z.inj_add, <- IH by done. done.
Qed.

Lemma filter_has_key :
  (∀ r, r ∈ df → is_Some (key r)) →
  filter (λ r, key r ∈ Some <$> group_keys) df = df.
Proof.
  intros Hkey. unfold group_keys.
  assert (∀ r, r ∈ df → key r ∈ Some <$> isort leb (remove_dups (omap key df))) as Hin.
  { intros r Hr. destruct (Hkey r Hr) as [k Hk]. rewrite Hk.
    apply list_elem_of_fmap_2. rewrite isort_perm, elem_of_remove_dups, list_elem_of_omap.
    eauto. }
  revert Hin. generalize (isort leb (remove_dups (omap key df))). intros ks.
  clear Hkey. induction df as [|r l IH]; intros Hin; [done|].
  rewrite filter_cons, decide_True by (apply Hin; left).
  f_equal. apply IH. intros r' Hr'. apply Hin. by right.
Qed.
End GroupByFacts.

Lemma sum_list_perm l k : l ≡ₚ k → pd.sum_list l = pd.sum_list k.
Proof. unfold pd.sum_list. induction 1; simpl; lia. Qed.

(** ** Rows without nulls *)

Section NoNulls.
Import pd.

Lemma dropna_if {R} `{IsNull R} (df : list R) :
  (if existsb isnull df then dropna df else df) = dropna df.
Proof.
  destruct (existsb isnull df) eqn:E; [done|].
  unfold dropna. induction df as [|r l IH]; [done|].
  simpl in E. apply orb_false_elim in E as [Hr Hl].
  rewrite filter_cons, decide_True by done. f_equal. by apply IH.
Qed.

Lemma elem_of_dropna {R} `{IsNull R} (df : list R) r :
  r ∈ dropna df ↔ isnull r = false ∧ r ∈ df.
Proof. unfold dropna. by rewrite list_elem_of_filter. Qed.

Lemma pair_notnull {L R} `{IsNull L, IsNull R} (p : L * R) :
  isnull p = false → isnull p.1 = false ∧ isnull p.2 = false.
Proof. unfold isnull at 1, pair_isnull. apply orb_false_elim. Qed.

Lemma option_notnull {R} `{IsNull R} (o : option R) :
  isnull o = false → ∃ r, o = Some r ∧ isnull r = false.
Proof. destruct o as [r|]; [by exists r|done]. Qed.

Lemma is_Some_decide {A} `{EqDecision A} (o : option A) :
  bool_decide (o = None) = false → is_Some o.
Proof. destruct o; [by eauto|done]. Qed.

Lemma sale_notnull (s : Sale.row) :
  isnull s = false → is_Some (Sale.customer_id s) ∧ is_Some (Sale.sale_dt s).
Proof.
  unfold isnull, sale_isnull. intros Hn.
  repeat (apply orb_false_elim in Hn as [Hn ?]). split; by apply is_Some_decide.
Qed.

Lemma vehicle_notnull (v : Vehicle.row) :
  isnull v = false → is_Some (Vehicle.vehicle_year v).
Proof.
  unfold isnull, vehicle_isnull. intros Hn.
  repeat (apply orb_false_elim in Hn as [Hn ?]). by apply is_Some_decide.
Qed.

Lemma vehicle_model_notnull (m : VehicleModel.row) :
  isnull m = false →
  is_Some (VehicleModel.brand_name m) ∧ is_Some (VehicleModel.model_name m).
Proof.
  unfold isnull, vehicle_model_isnull. intros Hn.
  repeat (apply orb_false_elim in Hn as [Hn ?]). split; by apply is_Some_decide.
Qed.

Lemma customer_notnull (c : Customer.row) :
  isnull c = false → is_Some (Customer.customer_name c).
Proof.
  unfold isnull, customer_isnull. intros Hn.
  repeat (apply orb_false_elim in Hn as [Hn ?]). by apply is_Some_decide.
Qed.

Lemma invoice_notnull (i : Invoice.row) :
  isnull i = false → is_Some (Invoice.price i).
Proof.
  unfold isnull, invoice_isnull. intros Hn.
  repeat (apply orb_false_elim in Hn as [Hn ?]). by apply is_Some_decide.
Qed.

(** A row of a merge without nulls has all its columns. *)
Lemma notnull_merged {X} `{IsNull X} (r : merged X) :
  isnull r = false →
  is_Some (customer_id r) ∧ is_Some (sale_dt r) ∧ isnull r.1.1.2 = false ∧
  is_Some (vehicle_year r) ∧ is_Some (brand_name r) ∧ is_Some (model_name r).
Proof.
  intros [Hsxv Hm]%pair_notnull. apply pair_notnull in Hsxv as [Hsx Hv].
  apply pair_notnull in Hsx as [Hs Hx].
  apply option_notnull in Hm as (m & Em & Hm). apply option_notnull in Hv as (v & Ev & Hv).
  apply sale_notnull in Hs as [? ?]. apply vehicle_notnull in Hv.
  apply vehicle_model_notnull in Hm as [? ?].
  unfold customer_id, sale_dt, vehicle_year, brand_name, model_name.
  rewrite Em, Ev. simpl. done.
Qed.

End NoNulls.

#[global] Instance Str_inj : Inj (=) (=) Str.
Proof. by intros ?? [=]. Qed.
#[global] Instance Int_inj : Inj (=) (=) Int.
Proof. by intros ?? [=]. Qed.

(** The integer a cell holds. *)
Definition int_of (c : cell) : Z := match c with Int z => z | _ => 0%Z end.


Lemma brand_frame_columns S s v i m fr :
  sales_by_brand_frame S s v i m = Return fr →
  pd.loc fr "vehicle_brand" <$> pd.rows fr ≡ₚ (λ g, Str g.1) <$> brand_groups s v i m ∧
  pd.loc fr "n_sales" <$> pd.rows fr
    ≡ₚ (λ g, Int (Z.of_nat (length g.2))) <$> brand_groups s v i m.
Proof.
  intros Hfr. destruct (sales_by_brand_spec S s v i m) as (fr' & Hfr' & _ & Hcols & Hp & _).
  rewrite Hfr in Hfr'. injection Hfr' as <-.
  rewrite !Hp, !fmap_imap, !imap_fmap. split.
  - rewrite <- imap_const.
    match goal with |- ?a ≡ₚ ?b => cut (a = b); [by intros ->|] end.
    apply imap_ext. intros k g _. simpl. apply loc_brand_row, Hcols.
  - rewrite <- imap_const.
    match goal with |- ?a ≡ₚ ?b => cut (a = b); [by intros ->|] end.
    apply imap_ext. intros k g _. simpl. apply loc_brand_row, Hcols.
Qed.


(** ** new_customers, old_customers *)

Lemma filter_none {A} (P : A → Prop) `{∀ x, Decision (P x)} (l : list A) :
  (∀ x, x ∈ l → ¬ P x) → filter P l = [].
Proof.
  induction l as [|x l IH]; intros HP; [done|].
  rewrite filter_cons_False by (apply HP; left). apply IH. intros y Hy. apply HP. by right.
Qed.

(** In a list built from distinct keys, the elements of one key are one. *)
Lemma filter_imap_NoDup {A B} (F : nat → A → B) (P : B → Prop) `{∀ x, Decision (P x)}
    (ks : list A) (k : A) :
  NoDup ks → k ∈ ks → (∀ j k', P (F j k') ↔ k' = k) →
  ∃ j, filter P (imap F ks) = [F j k].
Proof.
  intros Hnd. revert F. induction Hnd as [|k0 ks Hk0 Hnd IH]; intros F Hk HP.
  - by apply elem_of_nil in Hk.
  - rewrite imap_cons. apply elem_of_cons in Hk as [->|Hk].
    + rewrite filter_cons_True by (by apply HP). exists 0. f_equal.
      apply filter_none. intros y (j & k' & -> & Hk')%elem_of_lookup_imap_1 HPy.
      apply (HP (S j)) in HPy as ->. by apply list_elem_of_lookup_2 in Hk'.
    + rewrite filter_cons_False by (rewrite HP; by intros ->).
      destruct (IH (F ∘ S) Hk) as [j Hj]; [intros j k'; apply (HP (S j))|]. by exists (S j).
Qed.

Lemma loc_purchase_row fr x c0 c1 c2 c3 c4 c5 :
  pd.columns fr = purchase_columns →
  pd.loc fr "customer_id" (x, [c0; c1; c2; c3; c4; c5]) = c0 ∧
  pd.loc fr "sale_dt" (x, [c0; c1; c2; c3; c4; c5]) = c1 ∧
  pd.loc fr "customer_name" (x, [c0; c1; c2; c3; c4; c5]) = c2 ∧
  pd.loc fr "vehicle_brand" (x, [c0; c1; c2; c3; c4; c5]) = c3 ∧
  pd.loc fr "vehicle_model" (x, [c0; c1; c2; c3; c4; c5]) = c4 ∧
  pd.loc fr "vehicle_year" (x, [c0; c1; c2; c3; c4; c5]) = c5.
Proof. intros Hc. unfold pd.loc. rewrite Hc. done. Qed.

(** The row [last_purchase] returns for a customer of the frame. *)
Lemma last_purchase_row S df fr cid :
  last_purchase S df = Return fr →
  (∃ x, x ∈ df ∧ customer_id x = Some cid) →
  ∃ j, filter (λ x, pd.loc fr "customer_id" x = Int cid) (pd.rows fr)
       = [(Int j, Int cid :: purchase_cells (filter (λ x, customer_id x = Some cid) df))].
Proof.
  intros Hfr Hcid. destruct (last_purchase_spec S df) as (fr' & Hfr' & _ & Hcols & Hp).
  rewrite Hfr in Hfr'. injection Hfr' as <-.
  rewrite groups_groupby, <- list_fmap_compose, imap_fmap in Hp.
  match type of Hp with _ ≡ₚ imap ?F _ =>
    destruct (filter_imap_NoDup F (λ x, pd.loc fr "customer_id" x = Int cid)
                (group_keys df customer_id) cid) as [j Hj] end.
  - apply group_keys_NoDup.
  - by apply elem_of_group_keys.
  - intros j k'. simpl. unfold purchase_cells.
    match goal with |- context [pd.loc fr _ (?x, [?c0; ?c1; ?c2; ?c3; ?c4; ?c5])] =>
      destruct (loc_purchase_row fr x c0 c1 c2 c3 c4 c5 Hcols) as (-> & _) end.
    split; [by intros [= ->]|by intros ->].
  - exists (Z.of_nat j). apply Permutation_singleton_r.
    rewrite Hp, Hj. done.
Qed.

Lemma foldl_max_spec (x : Z) (l : list Z) :
  (foldl Z.max x l = x ∨ foldl Z.max x l ∈ l) ∧
  (x ≤ foldl Z.max x l)%Z ∧ ∀ y, y ∈ l → (y ≤ foldl Z.max x l)%Z.
Proof.
  revert x. induction l as [|z l IH]; intros x; simpl.
  - split; [by left|]. split; [lia|]. by intros y ?%elem_of_nil.
  - destruct (IH (Z.max x z)) as (Hin & Hle & Hall). split; [|split].
    + destruct Hin as [Hin|Hin]; [|right; by right].
      rewrite Hin. destruct (Z.max_spec x z) as [[_ ->]|[_ ->]]; [right; left|by left].
    + lia.
    + intros y [->|Hy]%elem_of_cons; [lia|by apply Hall].
Qed.

Lemma max_list_spec (l : list Z) (x0 : Z) :
  x0 ∈ l → ∃ t, pd.max_list l = Some t ∧ t ∈ l ∧ ∀ y, y ∈ l → (y ≤ t)%Z.
Proof.
  destruct l as [|x l]; [by intros ?%elem_of_nil|]. intros _.
  destruct (foldl_max_spec x l) as (Hin & Hle & Hall).
  exists (foldl Z.max x l). split; [done|]. split.
  - destruct Hin as [->|Hin]; [left|by right].
  - intros y [->|Hy]%elem_of_cons; [done|by apply Hall].
Qed.

(** The date bound of the two customer reports, both inclusive. *)
Definition qualifies (r : report) (t : Z) : Prop :=
  match r with
  | NewCustomers => (datetime 2020 1 1 ≤ t)%Z
  | OldCustomers => (t ≤ datetime 2016 1 1)%Z
  | _ => False
  end.

(** The rows a customer report groups. *)
Definition qualifying_rows (r : report) (s : list Sale.row) (v : list Vehicle.row)
    (m : list VehicleModel.row) (c : list Customer.row) : list (merged Customer.row) :=
  match r with
  | NewCustomers => new_customers_rows s v m c
  | OldCustomers => old_customers_rows s v m c
  | _ => []
  end.

Lemma elem_of_qualifying_rows r s v m c x :
  x ∈ qualifying_rows r s v m c ↔
  x ∈ pd.dropna (customers_merge s v m c) ∧ ∃ t, sale_dt x = Some t ∧ qualifies r t.
Proof.
  destruct r; simpl;
    unfold new_customers_rows, old_customers_rows, customers_rows, pd.getitem_mask;
    rewrite ?dropna_if, ?list_elem_of_filter.
  - split; [by intros ?%elem_of_nil|by intros (_ & ? & _ & [])].
  - unfold pd.ge. destruct (sale_dt x) as [t|].
    + rewrite Z.leb_le. split; [intros [? ?]; by eauto|].
      by intros (? & t' & [= <-] & ?).
    + split; [by intros [? _]|by intros (_ & ? & ? & _)].
  - unfold pd.le. destruct (sale_dt x) as [t|].
    + rewrite Z.leb_le. split; [intros [? ?]; by eauto|].
      by intros (? & t' & [= <-] & ?).
    + split; [by intros [? _]|by intros (_ & ? & ? & _)].
  - split; [by intros ?%elem_of_nil|by intros (_ & ? & _ & [])].
Qed.

Lemma frame_last_purchase S r s v i m c t :
  qualifies r t → frame S r s v i m c = last_purchase S (qualifying_rows r s v m c).
Proof. by destruct r. Qed.


(** ** next_vehicle *)

Definition next_vehicle_columns : list string :=
  ["most_common_second_veh_brand"; "first_veh_brand"].

(** The mode [next_vehicle] asks for, over the rows [g] of one customer. *)
Definition brand_modes (g : list (merged Customer.row)) : list string :=
  pd.mode (brand_name <$> g).

Lemma filter_fmap_key (keys : list Z) (h : Z → list cell) (k : Z) :
  NoDup keys → k ∈ keys →
  filter (λ q : cell * list cell, q.1 = Int k) ((λ k, (Int k, h k)) <$> keys)
  = [(Int k, h k)].
Proof.
  intros Hnd Hk. rewrite <- imap_const.
  destruct (filter_imap_NoDup (const (λ k, (Int k, h k)))
              (λ q : cell * list cell, q.1 = Int k) keys k Hnd Hk) as [j Hj]; [|done].
  intros j' k'. simpl. split; [by intros [= ->]|by intros ->].
Qed.

(** Joining on the index two frames built over the same distinct keys. *)
Lemma merge_rows_same_keys (all keys : list Z) (h : Z → list cell) (n : nat)
    (body : list (cell * list cell)) (Q : Z → list cell → Prop) :
  NoDup all → Forall (λ k, k ∈ all) keys →
  Forall2 (λ k r, r.1 = Int k ∧ Q k r.2) keys body →
  Forall2 (λ k r, ∃ vs, Q k vs ∧ r = (Int k, (vs ++ h k)%list)) keys
    (r ← body;
     match filter (λ q : cell * list cell, q.1 = r.1) ((λ k, (Int k, h k)) <$> all) with
     | [] => [(r.1, (r.2 ++ replicate n NaN)%list)]
     | ms => (λ q, (r.1, (r.2 ++ q.2)%list)) <$> ms
     end).
Proof.
  intros Hnd Hin Hb. induction Hb as [|k r keys body [Hk HQ] Hb IH]; [constructor|].
  apply Forall_cons in Hin as [Hkin Hin].
  change (mbind ?f (r :: body)) with (f r ++ mbind f body)%list.
  cbv beta. rewrite Hk, filter_fmap_key by done.
  constructor; [|by apply IH]. by exists r.2.
Qed.

(** What a result of [next_vehicle_frame] is made of: one row per customer of
    the retained rows, holding the first of the sorted modes of the
    customer's brands and the customer's first non-null brand. *)
Lemma next_vehicle_frame_inv S s v m c fr :
  next_vehicle_frame S s v m c = Return fr →
  let df := next_vehicle_rows S s v m c in
  pd.index_name fr = Some "customer_id" ∧
  pd.columns fr = next_vehicle_columns ∧
  ∃ body,
    pd.rows fr ≡ₚ body ∧
    Forall2 (λ k r, ∃ b rest,
               brand_modes (filter (λ x, customer_id x = Some k) df) = b :: rest ∧
               r = (Int k, [Str b; pd.to_cell (head (omap brand_name
                                     (filter (λ x, customer_id x = Some k) df)))]))
            (group_keys df customer_id) body.
Proof.
  intros Hfr df. unfold next_vehicle_frame in Hfr. fold df in Hfr.
  apply bind_Return_inv in Hfr as (df1 & H1 & Hfr).
  rewrite (agg_total _ _ (λ g, [pd.to_cell (head (omap brand_name g))])) in Hfr by done.
  unfold mbind at 1, result_bind at 1 in Hfr. cbv beta iota zeta in Hfr.
  apply bind_Return_inv in Hfr as (df2 & H2 & Hfr).
  apply sort_values_inv in Hfr as (Hidx & Hcols & Hrows).
  apply agg_inv in H1 as (body1 & Hbody1 & ->).
  rewrite groups_groupby in Hbody1, H2. apply Forall2_fmap_l in Hbody1.
  unfold pd.merge_index_left in H2. simpl in H2. injection H2 as <-.
  simpl in Hidx, Hcols, Hrows.
  split; [done|]. split; [done|].
  eexists. split; [exact Hrows|].
  rewrite <- list_fmap_compose.
  eapply Forall2_impl.
  - apply (merge_rows_same_keys (group_keys df customer_id) (group_keys df customer_id)
             (λ k, [pd.to_cell (head (omap brand_name
                                  (filter (λ x, customer_id x = Some k) df)))]) 1 body1
             (λ k vs, ∃ b rest,
                brand_modes (filter (λ x, customer_id x = Some k) df) = b :: rest ∧
                vs = [Str b])).
    + apply group_keys_NoDup.
    + by apply Forall_forall.
    + eapply Forall2_impl; [exact Hbody1|]. simpl. intros k r [Hk Hv]. split; [done|].
      apply Forall2_cons_inv_l in Hv as (v0 & vs & Hv0 & Hvs & ->).
      apply Forall2_nil_inv_l in Hvs as ->. simpl in Hv0.
      unfold brand_modes.
      destruct (pd.mode _) as [|b rest]; [done|]. injection Hv0 as <-. eauto.
  - simpl. intros k r (vs & (b & rest & Hb & ->) & ->). eauto.
Qed.

(** ** The order of strings *)

Lemma ascii_compare_refl a : Ascii.compare a a = Eq.
Proof. apply N.compare_refl. Qed.

Lemma ascii_compare_lt_trans a b c :
  Ascii.compare a b = Lt → Ascii.compare b c = Lt → Ascii.compare a c = Lt.
Proof. unfold Ascii.compare. rewrite !N.compare_lt_iff. lia. Qed.

Lemma string_compare_refl s : String.compare s s = Eq.
Proof. induction s as [|a s IH]; simpl; [done|]. by rewrite ascii_compare_refl. Qed.

Lemma string_compare_lt_trans s1 s2 s3 :
  String.compare s1 s2 = Lt → String.compare s2 s3 = Lt → String.compare s1 s3 = Lt.
Proof.
  revert s2 s3. induction s1 as [|a1 s1 IH]; intros [|a2 s2] [|a3 s3]; simpl; try done.
  destruct (Ascii.compare a1 a2) eqn:E12; [|clear IH|done];
    (destruct (Ascii.compare a2 a3) eqn:E23; [| |done]).
  - apply Ascii.compare_eq_iff in E12 as ->. apply Ascii.compare_eq_iff in E23 as ->.
    rewrite ascii_compare_refl. apply IH.
  - apply Ascii.compare_eq_iff in E12 as ->. by rewrite E23.
  - apply Ascii.compare_eq_iff in E23 as <-. by rewrite E12.
  - by rewrite (ascii_compare_lt_trans _ _ _ E12 E23).
Qed.

#[global] Instance string_ord_laws : OrdLaws string.
Proof.
  split; unfold leb, string_ord.
  - intros a b Hab. destruct (String.leb_total a b); congruence.
  - intros a b c. unfold String.leb.
    destruct (String.compare a b) eqn:Eab; [|idtac|done].
    + apply String.compare_eq_iff in Eab as ->. done.
    + destruct (String.compare b c) eqn:Ebc; [| |done].
      * apply String.compare_eq_iff in Ebc as <-. by rewrite Eab.
      * by rewrite (string_compare_lt_trans _ _ _ Eab Ebc).
  - apply String.leb_antisym.
Qed.

#[global] Instance Z_ord_laws : OrdLaws Z.
Proof.
  split; unfold leb, Z_ord.
  - intros a b ?%Z.leb_gt. apply Z.leb_le. lia.
  - intros a b c ?%Z.leb_le ?%Z.leb_le. apply Z.leb_le. lia.
  - intros a b ?%Z.leb_le ?%Z.leb_le. lia.
Qed.

(** The head of a sorted list is its least element. *)
Lemma isort_head_least {K} `{OrdLaws K} (l : list K) (b : K) (rest : list K) :
  isort leb l = b :: rest → ∀ x, x ∈ l → leb b x = true.
Proof.
  intros Hs x Hx.
  assert (Hsorted : Sorted (λ a b, leb a b = true) (b :: rest)).
  { rewrite <- Hs. apply isort_sorted, leb_total. }
  apply Sorted_StronglySorted in Hsorted;
    [|intros x1 x2 x3 H12 H23; by eapply leb_trans].
  apply StronglySorted_inv in Hsorted as [_ Hall].
  rewrite <- (isort_perm leb l), Hs in Hx. apply elem_of_cons in Hx as [->|Hx].
  - destruct (leb b b) eqn:E; [done|]. pose proof (leb_total _ _ E). congruence.
  - rewrite Forall_forall in Hall. by apply Hall.
Qed.

(** ** The mode *)

Section Mode.
Import pd.
Context {A : Type} `{EqDecision A, OrdLaws A}.

Lemma foldr_max_ge (ns : list nat) (n : nat) : n ∈ ns → (n ≤ foldr Nat.max 0 ns)%nat.
Proof.
  induction ns as [|k ns IH]; [by intros ?%elem_of_nil|].
  intros [->|Hn]%elem_of_cons; simpl; [lia|]. apply IH in Hn. lia.
Qed.

Lemma max_count_ge (l : list A) v : v ∈ l → (count_of v l ≤ max_count l)%nat.
Proof.
  intros Hv. apply foldr_max_ge. by apply (list_elem_of_fmap_2 (λ v, count_of v l)).
Qed.

Lemma count_of_perm (l k : list A) v : l ≡ₚ k → count_of v l = count_of v k.
Proof. unfold count_of. by intros ->. Qed.

Lemma omap_id_fmap {B} (f : B → option A) (l : list B) : omap id (f <$> l) = omap f l.
Proof. induction l as [|x l IH]; [done|]. csimpl. by rewrite IH. Qed.

(** The first of the sorted modes: a most frequent non-null value, and the
    least of the most frequent ones. *)
Lemma mode_head (x : list (option A)) (b : A) (rest : list A) :
  mode x = b :: rest →
  b ∈ omap id x ∧
  ∀ b', b' ∈ omap id x →
        (count_of b' (omap id x) ≤ count_of b (omap id x))%nat ∧
        (count_of b' (omap id x) = count_of b (omap id x) → leb b b' = true).
Proof.
  unfold mode. set (vals := omap id x). intros Hm.
  assert (Hb : b ∈ filter (λ v, count_of v vals = max_count vals) vals).
  { rewrite <- elem_of_remove_dups, <- (isort_perm leb), Hm. left. }
  apply list_elem_of_filter in Hb as [Hb Hbin]. split; [done|].
  intros b' Hb'. rewrite Hb. split; [by apply max_count_ge|].
  intros Hc. apply (isort_head_least _ _ _ Hm).
  apply elem_of_remove_dups, list_elem_of_filter. done.
Qed.

(** No non-null value, no mode. *)
Lemma mode_all_null (x : list (option A)) : omap id x = [] → mode x = [].
Proof. unfold mode. by intros ->. Qed.
End Mode.

(** ** The rows next_vehicle keeps *)

Section Retained.
Context (S : Sorter) (s : list Sale.row) (v : list Vehicle.row)
  (m : list VehicleModel.row) (c : list Customer.row).

(** The number of rows of the merge for customer [k]. *)
Definition n_rows (k : Z) : nat :=
  length (filter (λ x, customer_id x = Some k) (customers_merge s v m c)).

(** A row of a customer with more than one row. *)
Definition retained (x : merged Customer.row) : Prop :=
  ∃ k, customer_id x = Some k ∧ (1 < n_rows k)%nat.

#[local] Instance retained_dec x : Decision (retained x).
Proof.
  unfold retained. destruct (customer_id x) as [k|].
  - destruct (decide (1 < n_rows k)%nat) as [Hn|Hn].
    + left. eauto.
    + right. by intros (k' & [= <-] & ?).
  - right. by intros (k' & [=] & ?).
Defined.

Lemma next_vehicle_rows_perm :
  next_vehicle_rows S s v m c ≡ₚ filter retained (customers_merge s v m c).
Proof.
  unfold next_vehicle_rows, pd.sort_values_col. rewrite sort_perm.
  unfold pd.isin, pd.size_series. rewrite groups_groupby.
  match goal with |- ?a ≡ₚ ?b => cut (a = b); [by intros ->|] end.
  apply list_filter_iff. intros x. unfold retained.
  rewrite <- !list_fmap_compose, list_elem_of_fmap. split.
  - intros ([k n] & -> & Hk). exists k. split; [done|].
    apply list_elem_of_filter in Hk as [Hn Hk]. simpl in Hn.
    apply list_elem_of_fmap in Hk as (k'' & [= -> ->] & Hk). done.
  - intros (k & Hk & Hn). exists (k, n_rows k). split; [done|].
    apply list_elem_of_filter. split; [done|].
    apply (list_elem_of_fmap_2' _ _ k); [|done].
    apply elem_of_group_keys. unfold n_rows in Hn.
    destruct (filter _ _) as [|x0 l] eqn:E; [simpl in Hn; lia|].
    assert (Hx0 : x0 ∈ x0 :: l) by left. rewrite <- E in Hx0.
    apply list_elem_of_filter in Hx0 as [? ?]. eauto.
Qed.

Lemma next_vehicle_rows_customer k :
  (1 < n_rows k)%nat →
  filter (λ x, customer_id x = Some k) (next_vehicle_rows S s v m c)
  ≡ₚ filter (λ x, customer_id x = Some k) (customers_merge s v m c).
Proof.
  intros Hn. rewrite next_vehicle_rows_perm, list_filter_filter.
  match goal with |- ?a ≡ₚ ?b => cut (a = b); [by intros ->|] end.
  apply list_filter_iff. intros x. split; [by intros [? _]|]. intros Hx.
  split; [done|]. by exists k.
Qed.

(** The customers of the retained rows are those with more than one row. *)
Lemma retained_keys k :
  k ∈ group_keys (next_vehicle_rows S s v m c) customer_id ↔ (1 < n_rows k)%nat.
Proof.
  rewrite elem_of_group_keys. split.
  - intros (x & Hx & Hk). rewrite next_vehicle_rows_perm in Hx.
    apply list_elem_of_filter in Hx as [(k' & Hk' & Hn) _]. congruence.
  - intros Hn. pose proof (next_vehicle_rows_customer k Hn) as Hp.
    unfold n_rows in Hn.
    destruct (filter _ (customers_merge s v m c)) as [|x0 l] eqn:E; [simpl in Hn; lia|].
    assert (Hx0 : x0 ∈ x0 :: l) by left. rewrite <- Hp in Hx0.
    apply list_elem_of_filter in Hx0 as [? ?]. eauto.
Qed.
End Retained.

Section NextVehicle.
Context (S : Sorter) (s : list Sale.row) (v : list Vehicle.row)
  (m : list VehicleModel.row) (c : list Customer.row).

Lemma loc_next_vehicle_row fr x c0 c1 :
  pd.columns fr = next_vehicle_columns →
  pd.loc fr "most_common_second_veh_brand" (x, [c0; c1]) = c0 ∧
  pd.loc fr "first_veh_brand" (x, [c0; c1]) = c1.
Proof. intros Hc. unfold pd.loc. rewrite Hc. done. Qed.

(** A row of the report: a customer with more than one row of the merge. *)
Lemma next_vehicle_row fr row :
  next_vehicle_frame S s v m c = Return fr → row ∈ pd.rows fr →
  ∃ k b rest,
    (1 < n_rows s v m c k)%nat ∧
    brand_modes (filter (λ x, customer_id x = Some k) (next_vehicle_rows S s v m c))
      = b :: rest ∧
    row = (Int k, [Str b; pd.to_cell (head (omap brand_name
                     (filter (λ x, customer_id x = Some k) (next_vehicle_rows S s v m c))))]).
Proof.
  intros Hfr Hrow.
  destruct (next_vehicle_frame_inv S s v m c fr Hfr) as (_ & _ & body & Hp & Hbody).
  rewrite Hp in Hrow. apply list_elem_of_lookup in Hrow as [j Hj].
  destruct (Forall2_lookup_r _ _ _ _ _ Hbody Hj) as (k & Hk & b & rest & Hb & ->).
  exists k, b, rest. split; [|done].
  apply list_elem_of_lookup_2 in Hk. by apply retained_keys in Hk.
Qed.

(** The index labels of the report: each customer with more than one row
    of the merge once, and nobody else. *)
Lemma next_vehicle_labels fr k :
  next_vehicle_frame S s v m c = Return fr →
  length (filter (λ r, r.1 = Int k) (pd.rows fr))
  = if decide (1 < n_rows s v m c k)%nat then 1%nat else 0%nat.
Proof.
  intros Hfr.
  destruct (next_vehicle_frame_inv S s v m c fr Hfr) as (_ & _ & body & Hp & Hbody).
  rewrite Hp. clear Hp.
  assert (Hkeys : ∀ k', k' ∈ group_keys (next_vehicle_rows S s v m c) customer_id ↔
                        (1 < n_rows s v m c k')%nat) by apply retained_keys.
  pose proof (group_keys_NoDup (next_vehicle_rows S s v m c) customer_id) as Hnd.
  revert Hkeys Hnd Hbody.
  generalize (group_keys (next_vehicle_rows S s v m c) customer_id). intros keys.
  destruct (decide (1 < n_rows s v m c k)%nat) as [Hn|Hn]; intros Hkeys Hnd Hbody.
  - apply Hkeys in Hn. clear Hkeys.
    induction Hbody as [|k0 r keys body (b & rest & _ & ->) Hbody IH]; [by apply elem_of_nil in Hn|].
    apply NoDup_cons in Hnd as [Hk0 Hnd]. apply elem_of_cons in Hn as [->|Hn].
    + rewrite filter_cons_True by done. simpl. f_equal.
      rewrite filter_none; [done|]. intros r Hr Hrk.
      apply list_elem_of_lookup in Hr as [j Hj].
      destruct (Forall2_lookup_r _ _ _ _ _ Hbody Hj) as (k' & Hk' & b' & rest' & _ & ->).
      simpl in Hrk. injection Hrk as ->. by apply list_elem_of_lookup_2 in Hk'.
    + rewrite filter_cons_False; [by apply IH|]. simpl. intros [= ->]. done.
  - rewrite filter_none; [done|]. intros r Hr Hrk.
    apply list_elem_of_lookup in Hr as [j Hj].
    destruct (Forall2_lookup_r _ _ _ _ _ Hbody Hj) as (k' & Hk' & b' & rest' & _ & ->).
    simpl in Hrk. injection Hrk as ->. apply list_elem_of_lookup_2 in Hk'.
    by apply Hkeys in Hk'.
Qed.
End NextVehicle.

Lemma omap_all_None {A B} (f : A → option B) (l : list A) :
  (∀ x, x ∈ l → f x = None) → omap f l = [].
Proof.
  induction l as [|x l IH]; intros Hf; [done|].
  csimpl. rewrite (Hf x) by left. apply IH. intros y Hy. apply Hf. by right.
Qed.

Lemma agg_raise {K R} `{pd.ToCell K} (gb : pd.GroupBy K R) (name : string)
    (f : list R → result cell) (e : exn) (g : K * list R) :
  (∀ g' e', f g' = Raise e' → e' = e) → g ∈ pd.groups gb → f g.2 = Raise e →
  pd.agg gb [(name, f)] = Raise e.
Proof.
  intros He Hg Hf. unfold pd.agg.
  rewrite (mapM_Raise _ e _ g); [done| |done|].
  - intros g' e'. simpl. destruct (f g'.2) as [x|e''] eqn:E; simpl; [done|].
    intros [= <-]. by eapply He.
  - simpl. by rewrite Hf.
Qed.

(** A customer with more than one row of the merge and no brand at all
    makes [next_vehicle_frame] raise: the series of modes is empty, and
    [[0]] is not in its index. *)
Lemma next_vehicle_frame_raises S s v m c k :
  (1 < n_rows s v m c k)%nat →
  (∀ x, x ∈ customers_merge s v m c → customer_id x = Some k → brand_name x = None) →
  next_vehicle_frame S s v m c = Raise KeyError.
Proof.
  intros Hn Hnull. unfold next_vehicle_frame.
  set (df := next_vehicle_rows S s v m c).
  assert (Hmode : brand_modes (filter (λ x, customer_id x = Some k) df) = []).
  { unfold brand_modes. apply mode_all_null. rewrite omap_id_fmap.
    apply omap_all_None. intros x Hx. unfold df in Hx.
    rewrite (next_vehicle_rows_customer S s v m c k Hn) in Hx.
    apply list_elem_of_filter in Hx as [Hk Hx]. by apply Hnull. }
  rewrite (agg_raise (pd.groupby df "customer_id" customer_id true) "brand_name"
             (λ x, Str <$> pd.getitem0 (pd.mode (brand_name <$> x))) KeyError
             (k, filter (λ x, customer_id x = Some k) df)); [reflexivity| | |].
  - intros g e. destruct (pd.mode (brand_name <$> g)); simpl; [by intros [= <-]|done].
  - rewrite groups_groupby. apply (list_elem_of_fmap_2' _ _ k); [|done].
    by apply retained_keys.
  - simpl. unfold brand_modes in Hmode. by rewrite Hmode.
Qed.


(** ** When next_vehicle returns *)

Lemma foldr_max_attained (ns : list nat) : ns ≠ [] → foldr Nat.max 0%nat ns ∈ ns.
Proof.
  induction ns as [|n ns IH]; [done|]. intros _. simpl.
  destruct ns as [|n' ns].
  - simpl. rewrite Nat.max_0_r. left.
  - destruct (Nat.max_spec n (foldr Nat.max 0%nat (n' :: ns))) as [[_ ->]|[_ ->]].
    + right. by apply IH.
    + left.
Qed.

Lemma mode_nonempty {A} `{EqDecision A, Ord A} (x : list (option A)) (a : A) :
  a ∈ omap id x → pd.mode x ≠ [].
Proof.
  unfold pd.mode. set (vals := omap id x). intros Ha Hm.
  assert (Hne : (λ v, pd.count_of v vals) <$> vals ≠ []).
  { destruct vals; [by apply elem_of_nil in Ha|done]. }
  apply foldr_max_attained, list_elem_of_fmap in Hne as (w & Hw & Hwin).
  assert (Hin : w ∈ isort leb (remove_dups
                  (filter (λ v, pd.count_of v vals = pd.max_count vals) vals))).
  { rewrite isort_perm, elem_of_remove_dups. apply list_elem_of_filter. split; [|done].
    symmetry. exact Hw. }
  rewrite Hm in Hin. by apply elem_of_nil in Hin.
Qed.

Lemma agg_total_on {K R} `{pd.ToCell K} (gb : pd.GroupBy K R) spec
    (h : list R → list cell) :
  (∀ g, g ∈ pd.groups gb →
        mapM (λ f : string * (list R → result cell), f.2 g.2) spec = Return (h g.2)) →
  pd.agg gb spec =
    Return (if pd.as_index gb
            then {| pd.index_name := Some (pd.by_name gb); pd.columns := spec.*1;
                    pd.rows := (λ g, (pd.to_cell g.1, h g.2)) <$> pd.groups gb |}
            else {| pd.index_name := None; pd.columns := pd.by_name gb :: spec.*1;
                    pd.rows := imap (λ i r, (Int (Z.of_nat i), r.1 :: r.2))
                                 ((λ g, (pd.to_cell g.1, h g.2)) <$> pd.groups gb) |}).
Proof.
  intros Hh. unfold pd.agg.
  rewrite (mapM_Return _ (λ g, (pd.to_cell g.1, h g.2))); [done|].
  intros g Hg. by rewrite Hh.
Qed.

(** [next_vehicle_frame] returns a frame when every customer with more
    than one row of the merge has a brand on one of them. *)
Lemma next_vehicle_frame_returns S s v m c :
  (∀ k, (1 < n_rows s v m c k)%nat →
        ∃ x, x ∈ customers_merge s v m c ∧ customer_id x = Some k ∧
             is_Some (brand_name x)) →
  ∃ fr, next_vehicle_frame S s v m c = Return fr.
Proof.
  intros Hbrand. unfold next_vehicle_frame.
  set (df := next_vehicle_rows S s v m c).
  rewrite (agg_total_on (pd.groupby df "customer_id" customer_id true)
             [("brand_name", λ x, Str <$> pd.getitem0 (pd.mode (brand_name <$> x)))]
             (λ g, [Str (default "" (head (brand_modes g)))])).
  - rewrite (agg_total (pd.groupby df "customer_id" customer_id true)
               [("brand_name", pd.first brand_name)]
               (λ g, [pd.to_cell (head (omap brand_name g))])) by done.
    unfold mbind, result_bind. cbv beta iota zeta.
    unfold pd.merge_index_left. rewrite bool_decide_eq_true_2 by done.
    apply sort_values_Return. repeat constructor.
  - intros g [Hg (x0 & Hx0 & Hk)]%elem_of_groups. simpl.
    assert (Hn : (1 < n_rows s v m c g.1)%nat).
    { apply (retained_keys S). apply elem_of_group_keys. eauto. }
    destruct (Hbrand _ Hn) as (x & Hx & Hxk & [b Hb]).
    fold (brand_modes g.2).
    destruct (brand_modes g.2) as [|b0 rest] eqn:Hm; [|done].
    exfalso. apply (mode_nonempty (brand_name <$> g.2) b); [|exact Hm].
    rewrite omap_id_fmap, Hg. apply list_elem_of_omap. exists x. split; [|done].
    unfold df. rewrite (next_vehicle_rows_customer S s v m c g.1 Hn).
    by apply list_elem_of_filter.
Qed.

(** ** The reports of the example database *)

Example sales_by_brand_example :
  sales_by_brand_frame stable Example.sales Example.vehicles Example.invoices
    Example.vehicle_models
  = Return {| pd.index_name := None;
              pd.columns := ["vehicle_brand"; "n_sales"; "total_value"];
              pd.rows := [(Int 1, [Str "Honda"; Int 2; Int 47000]);
                          (Int 0, [Str "Ford"; Int 2; Int 32000]);
                          (Int 2, [Str "Toyota"; Int 2; Int 32000])] |}.
Proof. by vm_compute. Qed.

Example new_customers_example :
  new_customers_frame stable Example.sales Example.vehicles Example.vehicle_models
    Example.customers
  = Return {| pd.index_name := None;
              pd.columns := ["customer_id"; "sale_dt"; "customer_name"; "vehicle_brand";
                             "vehicle_model"; "vehicle_year"];
              pd.rows := [(Int 0, [Int 1; Int (datetime 2021 3 1); Str "Alice";
                                   Str "Toyota"; Str "Corolla"; Int 2020]);
                          (Int 1, [Int 3; Int (datetime 2020 1 1); Str "Carol";
                                   Str "Honda"; Str "Civic"; Int 2019])] |}.
Proof. by vm_compute. Qed.

Example old_customers_example :
  old_customers_frame stable Example.sales Example.vehicles Example.vehicle_models
    Example.customers
  = Return {| pd.index_name := None;
              pd.columns := ["customer_id"; "sale_dt"; "customer_name"; "vehicle_brand";
                             "vehicle_model"; "vehicle_year"];
              pd.rows := [(Int 0, [Int 2; Int (datetime 2015 7 1); Str "Bob";
                                   Str "Ford"; Str "Focus"; Int 2013]);
                          (Int 1, [Int 4; Int (datetime 2016 1 1); Str "Dave";
                                   Str "Ford"; Str "Focus"; Int 2015])] |}.
Proof. by vm_compute. Qed.

Example next_vehicle_example :
  next_vehicle_frame stable Example.sales Example.vehicles Example.vehicle_models
    Example.customers
  = Return {| pd.index_name := Some "customer_id";
              pd.columns := ["most_common_second_veh_brand"; "first_veh_brand"];
              pd.rows := [(Int 2, [Str "Ford"; Str "Ford"]);
                          (Int 1, [Str "Honda"; Str "Toyota"])] |}.
Proof. by vm_compute. Qed.

(** The file [new_customers] writes, and the three ways a report can end. *)
Example new_customers_file :
  new_customers stable "new_customers.csv" Example.world
  = (Return 0%Z,
     written Example.world "new_customers.csv"
       {| pd.header := [""; "customer_name"; "vehicle_brand"; "vehicle_model";
                        "vehicle_year"; "sale_dt"];
          pd.lines := [[Int 0; Str "Alice"; Str "Toyota"; Str "Corolla"; Int 2020;
                        Int (datetime 2021 3 1)];
                       [Int 1; Str "Carol"; Str "Honda"; Str "Civic"; Int 2019;
                        Int (datetime 2020 1 1)]] |}).
Proof. by vm_compute. Qed.

Example new_customers_unwritable :
  new_customers stable "/proc/report.csv" Example.world = (Return 1%Z, Example.world).
Proof. by vm_compute. Qed.

Example sales_by_brand_no_connection :
  sales_by_brand stable "sales_by_brand.csv"
    {| con := None; files := ∅; unwritable := ∅ |}
  = (Raise AttributeError, {| con := None; files := ∅; unwritable := ∅ |}).
Proof. by vm_compute. Qed.

(** ** Facts about the merges *)

Section MergeFacts.
Context {L R K : Type} `{EqDecision K}.
Context (on_l : L → option K) (on_r : R → option K).

Lemma elem_of_merge (left : list L) (right : list R) (p : L * R) :
  p ∈ pd.merge left right on_l on_r ↔ p.1 ∈ left ∧ p.2 ∈ right ∧ on_l p.1 = on_r p.2.
Proof.
  unfold pd.merge. rewrite list_elem_of_bind. split.
  - intros (l & Hp & Hl). apply list_elem_of_fmap in Hp as (r & -> & Hr).
    apply list_elem_of_filter in Hr as [? ?]. done.
  - intros (Hl & Hr & Hk). exists p.1. split; [|done].
    apply list_elem_of_fmap. exists p.2. split; [by destruct p|].
    by apply list_elem_of_filter.
Qed.

Lemma elem_of_merge_left (left : list L) (right : list R) (p : L * option R) :
  p ∈ pd.merge_left left right on_l on_r ↔
  p.1 ∈ left ∧
  match p.2 with
  | Some r => r ∈ right ∧ on_l p.1 = on_r r
  | None => on_l p.1 ∉ on_r <$> right
  end.
Proof.
  unfold pd.merge_left. rewrite list_elem_of_bind. split.
  - intros (l & Hp & Hl).
    destruct (filter (λ r, on_l l = on_r r) right) as [|r0 ms] eqn:Hf.
    + apply list_elem_of_singleton in Hp as ->. simpl. split; [done|].
      intros (r & Hk & Hr)%list_elem_of_fmap.
      assert (Hin : r ∈ filter (λ r, on_l l = on_r r) right)
        by (by apply list_elem_of_filter).
      rewrite Hf in Hin. by apply elem_of_nil in Hin.
    + apply list_elem_of_fmap in Hp as (r & -> & Hr). simpl. split; [done|].
      rewrite <- Hf in Hr. by apply list_elem_of_filter in Hr as [? ?].
  - destruct p as [l [r|]]; simpl.
    + intros (Hl & Hr & Hk). exists l. split; [|done].
      assert (Hin : r ∈ filter (λ r, on_l l = on_r r) right)
        by (by apply list_elem_of_filter).
      destruct (filter (λ r, on_l l = on_r r) right) as [|r0 ms];
        [by apply elem_of_nil in Hin|].
      apply elem_of_cons in Hin as [->|Hin]; [left|right].
      by apply (list_elem_of_fmap_2 (λ r, (l, Some r))).
    + intros (Hl & Hn). exists l. split; [|done].
      destruct (filter (λ r, on_l l = on_r r) right) as [|r0 ms] eqn:Hf; [left|].
      exfalso. apply Hn.
      assert (Hin : r0 ∈ filter (λ r, on_l l = on_r r) right) by (rewrite Hf; left).
      apply list_elem_of_filter in Hin as [-> Hin]. by apply list_elem_of_fmap_2.
Qed.

(** With distinct keys on the right, a key matches one row or none. *)
Lemma filter_key_unique (right : list R) (k : option K) :
  NoDup (on_r <$> right) →
  (k ∈ on_r <$> right ∧ ∃ r, filter (λ r, k = on_r r) right = [r]) ∨
  (¬ k ∈ on_r <$> right) ∧ filter (λ r, k = on_r r) right = [].
Proof.
  induction right as [|r0 right IH]; intros Hnd.
  - right. split; [by intros ?%elem_of_nil|done].
  - rewrite fmap_cons in Hnd. apply NoDup_cons in Hnd as [Hr0 Hnd].
    rewrite filter_cons. destruct (decide (k = on_r r0)) as [->|Hk].
    + left. split; [left|]. exists r0. f_equal.
      apply filter_none. intros r Hr Hk. apply Hr0. rewrite Hk.
      by apply list_elem_of_fmap_2.
    + destruct (IH Hnd) as [[Hin [r Hr]]|[Hin Hr]].
      * left. split; [by right|]. by exists r.
      * right. split; [|done]. rewrite fmap_cons. by intros [?|?]%elem_of_cons.
Qed.

Lemma merge_unique (left : list L) (right : list R) :
  NoDup (on_r <$> right) →
  fst <$> pd.merge left right on_l on_r = filter (λ l, on_l l ∈ on_r <$> right) left.
Proof.
  intros Hnd. unfold pd.merge. induction left as [|l left IH]; [done|].
  change (mbind ?g (l :: left)) with (g l ++ mbind g left)%list.
  rewrite fmap_app, IH, filter_cons. cbv beta.
  destruct (filter_key_unique right (on_l l) Hnd) as [[Hin [r ->]]|[Hin ->]].
  - by rewrite decide_True.
  - by rewrite decide_False.
Qed.

Lemma merge_left_unique (left : list L) (right : list R) :
  NoDup (on_r <$> right) → fst <$> pd.merge_left left right on_l on_r = left.
Proof.
  intros Hnd. unfold pd.merge_left. induction left as [|l left IH]; [done|].
  change (mbind ?g (l :: left)) with (g l ++ mbind g left)%list.
  rewrite fmap_app, IH. cbv beta.
  by destruct (filter_key_unique right (on_l l) Hnd) as [[Hin [r ->]]|[Hin ->]].
Qed.
(** One row on the left. *)
Lemma merge_one (l : L) (right : list R) (ms : list R) :
  filter (λ r, on_l l = on_r r) right = ms →
  pd.merge [l] right on_l on_r = pair l <$> ms.
Proof.
  intros <-. unfold pd.merge.
  change (mbind ?g [l]) with (g l ++ [])%list. by rewrite app_nil_r.
Qed.

Lemma merge_left_one (l : L) (right : list R) (r : R) :
  filter (λ r, on_l l = on_r r) right = [r] →
  pd.merge_left [l] right on_l on_r = [(l, Some r)].
Proof.
  intros H. unfold pd.merge_left.
  change (mbind ?g [l]) with (g l ++ [])%list. cbv beta. by rewrite H.
Qed.

Lemma merge_left_none (l : L) (right : list R) :
  filter (λ r, on_l l = on_r r) right = [] →
  pd.merge_left [l] right on_l on_r = [(l, None)].
Proof.
  intros H. unfold pd.merge_left.
  change (mbind ?g [l]) with (g l ++ [])%list. cbv beta. by rewrite H.
Qed.
End MergeFacts.

(** What [sales_by_brand] computes, in terms of the rows of its own joins:
    one row per brand of the rows that survive the joins without nulls,
    with the number of these rows and the int64 sum of their prices. *)
Lemma sales_by_brand_groups (S : Sorter) (s : list Sale.row) (v : list Vehicle.row)
    (i : list Invoice.row) (m : list VehicleModel.row) :
  let df := pd.dropna (sales_merge s v i m) in
  ∃ fr, sales_by_brand_frame S s v i m = Return fr ∧
    NoDup (pd.loc fr "vehicle_brand" <$> pd.rows fr) ∧
    (∀ b, Str b ∈ pd.loc fr "vehicle_brand" <$> pd.rows fr ↔
          ∃ r, r ∈ df ∧ brand_name r = Some b) ∧
    (∀ r, r ∈ pd.rows fr →
       ∃ b, pd.loc fr "vehicle_brand" r = Str b ∧
            pd.loc fr "n_sales" r
              = Int (Z.of_nat (length (filter (λ x, brand_name x = Some b) df))) ∧
            pd.loc fr "total_value" r
              = Int (pd.int64 (pd.sum_list
                                 (omap price (filter (λ x, brand_name x = Some b) df))))) ∧
    pd.sum_list (int_of <$> (pd.loc fr "n_sales" <$> pd.rows fr)) = Z.of_nat (length df).
Proof.
  intros df.
  assert (Hdf : sales_by_brand_rows s v i m = df) by apply dropna_if.
  assert (Hnn : ∀ r, r ∈ df → is_Some (brand_name r)).
  { intros r [Hr _]%elem_of_dropna. by apply notnull_merged in Hr as (_ & _ & _ & _ & Hb & _). }
  destruct (sales_by_brand_spec S s v i m) as (fr & Hfr & _ & Hcols & _ & _).
  destruct (brand_frame_columns S s v i m fr Hfr) as [Hbrand Hn].
  unfold brand_groups in Hbrand, Hn. rewrite Hdf, groups_groupby in Hbrand, Hn.
  rewrite <- list_fmap_compose in Hbrand, Hn.
  exists fr. split; [done|]. repeat split.
  - rewrite Hbrand. apply (NoDup_fmap_2 Str), group_keys_NoDup.
  - rewrite Hbrand. intros (k & [= ->] & Hk)%list_elem_of_fmap.
    by apply elem_of_group_keys in Hk.
  - intros Hb. rewrite Hbrand. apply (list_elem_of_fmap_2 Str).
    by apply elem_of_group_keys.
  - intros r Hr. apply (brand_row_shape S s v i m fr) in Hr as (k & g & Hg & ->); [|done].
    unfold brand_groups in Hg. rewrite Hdf in Hg. apply elem_of_groups in Hg as [Hg _].
    exists g.1. rewrite Hg.
    destruct (loc_brand_row fr (Int (Z.of_nat k)) (Str g.1)
                (Int (Z.of_nat (length (filter (λ r, brand_name r = Some g.1) df))))
                (Int (pd.int64 (pd.sum_list
                        (omap price (filter (λ r, brand_name r = Some g.1) df)))))
                Hcols) as (? & ? & ?).
    done.
  - rewrite (sum_list_perm _ _ (fmap_Permutation int_of _ _ Hn)).
    rewrite <- list_fmap_compose.
    transitivity (pd.sum_list
      ((λ k, Z.of_nat (length (filter (λ r, brand_name r = Some k) df)))
         <$> group_keys df brand_name)); [reflexivity|].
    rewrite (group_sizes_sum df brand_name _ (group_keys_NoDup df brand_name)).
    rewrite filter_has_key; [done|]. intros r Hr. by apply Hnn.
Qed.

(** ** The sales of the specification *)

(** The specification counts the Sales rows "whose join succeeds (no
    nulls)".  This is read off its words, not off the joins of the code: the
    invoice, the vehicle and the model of a sale are the rows that its
    foreign keys name. *)
Module Spec.

Definition invoice_of (i : list Invoice.row) (x : Sale.row) : option Invoice.row :=
  head (filter (λ r, Sale.invoice_id x = Invoice.invoice_id r) i).

Definition vehicle_of (v : list Vehicle.row) (x : Sale.row) : option Vehicle.row :=
  head (filter (λ r, Sale.vehicle_id x = Vehicle.vehicle_id r) v).

Definition model_of (m : list VehicleModel.row) (veh : Vehicle.row)
  : option VehicleModel.row :=
  head (filter (λ r, Vehicle.vehicle_model_id veh = VehicleModel.vehicle_model_id r) m).

(** The brand and the price of a sale whose join succeeds with no null. *)
Definition sold (i : list Invoice.row) (v : list Vehicle.row) (m : list VehicleModel.row)
    (x : Sale.row) : option (string * Z) :=
  inv ← invoice_of i x;
  veh ← vehicle_of v x;
  mo ← model_of m veh;
  if pd.isnull x || pd.isnull inv || pd.isnull veh || pd.isnull mo then None
  else b ← VehicleModel.brand_name mo; p ← Invoice.price inv; Some (b, p).

Definition join_succeeds (i : list Invoice.row) (v : list Vehicle.row)
    (m : list VehicleModel.row) (x : Sale.row) : Prop :=
  is_Some (sold i v m x).

(** C2 in the words of the specification, for one dataset: one row per
    brand of the sales whose join succeeds, with the number of these sales
    and the sum of their prices, and the [n_sales] add up to the number of
    Sales rows whose join succeeds. *)
Definition reports_sales_by_brand (S : Sorter) (s : list Sale.row)
    (v : list Vehicle.row) (i : list Invoice.row) (m : list VehicleModel.row) : Prop :=
  let sales := omap (sold i v m) s in
  ∃ fr, sales_by_brand_frame S s v i m = Return fr ∧
    NoDup (pd.loc fr "vehicle_brand" <$> pd.rows fr) ∧
    (∀ b, Str b ∈ pd.loc fr "vehicle_brand" <$> pd.rows fr ↔ b ∈ sales.*1) ∧
    (∀ r, r ∈ pd.rows fr →
       ∃ b, pd.loc fr "vehicle_brand" r = Str b ∧
            pd.loc fr "n_sales" r
              = Int (Z.of_nat (length (filter (λ x, x.1 = b) sales))) ∧
            pd.loc fr "total_value" r
              = Int (pd.sum_list (filter (λ x, x.1 = b) sales).*2)) ∧
    pd.sum_list (int_of <$> (pd.loc fr "n_sales" <$> pd.rows fr))
    = Z.of_nat (length (filter (join_succeeds i v m) s)).
End Spec.

Section SpecFacts.
Context (v : list Vehicle.row) (i : list Invoice.row) (m : list VehicleModel.row).

Lemma sales_merge_cons x s :
  sales_merge (x :: s) v i m = (sales_merge [x] v i m ++ sales_merge s v i m)%list.
Proof.
  unfold sales_merge, pd.merge_left, pd.merge.
  change (mbind ?g (x :: s)) with (g x ++ mbind g s)%list.
  change (mbind ?g [x]) with (g x ++ [])%list.
  by rewrite app_nil_r, !bind_app.
Qed.

Hypothesis invoice_key : NoDup (Invoice.invoice_id <$> i).
Hypothesis vehicle_key : NoDup (Vehicle.vehicle_id <$> v).
Hypothesis model_key : NoDup (VehicleModel.vehicle_model_id <$> m).

Lemma isnull_None {L R} `{pd.IsNull L, pd.IsNull R} (a : L) :
  pd.isnull (a, @None R) = true.
Proof. unfold pd.isnull at 1, pd.pair_isnull. simpl. apply orb_true_r. Qed.

Lemma sales_merge_sold x :
  (λ r, (brand_name r, price r)) <$> pd.dropna (sales_merge [x] v i m)
  = (λ b, (Some b.1, Some b.2)) <$> option_list (Spec.sold i v m x).
Proof.
  unfold sales_merge, Spec.sold, Spec.invoice_of, Spec.vehicle_of, Spec.model_of.
  destruct (filter_key_unique Invoice.invoice_id i (Sale.invoice_id x) invoice_key)
    as [[_ [inv Hi]]|[_ Hi]]; rewrite (merge_one _ _ _ _ _ Hi), Hi; [|done].
  rewrite list_fmap_singleton. cbn [head mbind option_bind].
  destruct (filter_key_unique Vehicle.vehicle_id v (Sale.vehicle_id x) vehicle_key)
    as [[_ [veh Hv]]|[_ Hv]]; rewrite Hv; cbn [head mbind option_bind].
  - rewrite (merge_left_one (λ r : Sale.row * Invoice.row, Sale.vehicle_id r.1)
               Vehicle.vehicle_id (x, inv) v veh Hv).
    destruct (filter_key_unique VehicleModel.vehicle_model_id m
                (Vehicle.vehicle_model_id veh) model_key) as [[_ [mo Hm]]|[_ Hm]];
      rewrite Hm; cbn [head mbind option_bind].
    + rewrite (merge_left_one vehicle_model_id VehicleModel.vehicle_model_id
                 (x, inv, Some veh) m mo Hm).
      unfold pd.dropna. rewrite filter_cons, filter_nil.
      change (pd.isnull (x, inv, Some veh, Some mo))
        with (pd.isnull x || pd.isnull inv || pd.isnull veh || pd.isnull mo).
      destruct (pd.isnull x || pd.isnull inv || pd.isnull veh || pd.isnull mo) eqn:Hnull.
      * by rewrite decide_False.
      * rewrite decide_True by done.
        repeat (apply orb_false_elim in Hnull as [Hnull ?]).
        destruct (vehicle_model_notnull mo) as [[b Hb] _]; [done|].
        destruct (invoice_notnull inv) as [p Hp]; [done|].
        unfold brand_name, price. csimpl. by rewrite Hb, Hp.
    + rewrite (merge_left_none vehicle_model_id VehicleModel.vehicle_model_id
                 (x, inv, Some veh) m Hm).
      unfold pd.dropna. rewrite filter_cons, decide_False; [done|].
      apply not_false_iff_true, isnull_None.
  - rewrite (merge_left_none (λ r : Sale.row * Invoice.row, Sale.vehicle_id r.1)
               Vehicle.vehicle_id (x, inv) v Hv).
    assert (Hnull : ∀ r, r ∈ pd.merge_left [(x, inv, None)] m vehicle_model_id
                           VehicleModel.vehicle_model_id → ¬ pd.isnull r = false).
    { intros r [Hr _]%elem_of_merge_left. apply list_elem_of_singleton in Hr.
      destruct r as [r1 r2]. simpl in Hr. subst r1.
      apply not_false_iff_true. unfold pd.isnull at 1, pd.pair_isnull. cbn [fst snd].
      apply orb_true_iff. left. apply isnull_None. }
    unfold pd.dropna. by rewrite filter_none.
Qed.

Lemma sales_by_brand_sold s :
  (λ r, (brand_name r, price r)) <$> pd.dropna (sales_merge s v i m)
  = (λ b, (Some b.1, Some b.2)) <$> omap (Spec.sold i v m) s.
Proof.
  induction s as [|x s IH]; [done|].
  rewrite sales_merge_cons.
  replace (pd.dropna (sales_merge [x] v i m ++ sales_merge s v i m))
    with (pd.dropna (sales_merge [x] v i m) ++ pd.dropna (sales_merge s v i m))%list
    by (symmetry; apply filter_app).
  rewrite fmap_app, IH, sales_merge_sold. csimpl.
  by destruct (Spec.sold i v m x).
Qed.
End SpecFacts.

Lemma filter_fmap_eq {A B C} (f : A → C) (g : B → C) (P : A → Prop) (Q : B → Prop)
    `{∀ x, Decision (P x), ∀ y, Decision (Q y)} (l : list A) (k : list B) :
  (∀ x y, f x = g y → (P x ↔ Q y)) →
  f <$> l = g <$> k → f <$> filter P l = g <$> filter Q k.
Proof.
  intros HPQ. revert k. induction l as [|x l IH]; intros [|y k]; try done.
  rewrite !fmap_cons. intros [= Hxy E]. rewrite !filter_cons.
  destruct (decide (P x)) as [HP|HP], (decide (Q y)) as [HQ|HQ].
  - rewrite !fmap_cons, Hxy. f_equal. by apply IH.
  - by apply (HPQ x y Hxy) in HP.
  - by apply (HPQ x y Hxy) in HQ.
  - by apply IH.
Qed.

Lemma omap_fmap_Some {A B} (f : A → option B) (l : list A) (k : list B) :
  f <$> l = Some <$> k → omap f l = k.
Proof.
  revert k. induction l as [|x l IH]; intros [|y k]; try done.
  rewrite !fmap_cons. intros [= Hx E]. csimpl. rewrite Hx. simpl. f_equal. by apply IH.
Qed.

Lemma length_omap_filter {A B} (f : A → option B) (l : list A) :
  length (omap f l) = length (filter (λ x, is_Some (f x)) l).
Proof.
  induction l as [|x l IH]; [done|]. csimpl. rewrite filter_cons.
  destruct (decide (is_Some (f x))) as [[y E]|E].
  - rewrite E. simpl. by rewrite IH.
  - apply eq_None_not_Some in E. by rewrite E.
Qed.

Lemma abs_sum_list (l : list Z) :
  (Z.abs (pd.sum_list l) ≤ pd.sum_list (Z.abs <$> l))%Z.
Proof.
  unfold pd.sum_list. induction l as [|x l IH]; [done|].
  rewrite fmap_cons. simpl. lia.
Qed.

Lemma sum_abs_filter {A} (f : A → Z) (P : A → Prop) `{∀ x, Decision (P x)} (l : list A) :
  (0 ≤ pd.sum_list (Z.abs <$> (f <$> filter P l))
     ≤ pd.sum_list (Z.abs <$> (f <$> l)))%Z.
Proof.
  unfold pd.sum_list. induction l as [|x l IH]; [done|]. rewrite filter_cons.
  destruct (decide (P x)); rewrite ?fmap_cons; simpl; lia.
Qed.

(** In its range an int64 is the number it stands for. *)
Lemma int64_exact (z : Z) : (- 2 ^ 63 ≤ z < 2 ^ 63)%Z → pd.int64 z = z.
Proof. intros Hz. unfold pd.int64. rewrite Z.mod_small; lia. Qed.

(** * The properties of the specification *)

(** C1, where the code departs from it.  Alice bought a Toyota Corolla in
    June 2020 and a Honda Civic in March 2021: the new-customers report
    gives her the date of the Honda and the brand, model and year of the
    Toyota, the first of her qualifying rows; likewise Bob, in the
    old-customers report, gets the date of his 2015 Toyota and the brand,
    model and year of his 2014 Ford.  Whatever the sorting routine. *)
Theorem last_purchase_reports_first_row (S : Sorter) :
  (∃ fr row,
     new_customers_frame S Example.sales Example.vehicles Example.vehicle_models
       Example.customers = Return fr ∧
     filter (λ x, pd.loc fr "customer_id" x = Int 1) (pd.rows fr) = [row] ∧
     pd.loc fr "sale_dt" row = Int (datetime 2021 3 1) ∧
     pd.loc fr "vehicle_brand" row = Str "Toyota" ∧
     pd.loc fr "vehicle_model" row = Str "Corolla" ∧
     pd.loc fr "vehicle_year" row = Int 2020 ∧
     ∃ x, x ∈ new_customers_rows Example.sales Example.vehicles Example.vehicle_models
                Example.customers ∧
          customer_id x = Some 1%Z ∧ sale_dt x = Some (datetime 2021 3 1) ∧
          brand_name x = Some "Honda" ∧ model_name x = Some "Civic" ∧
          vehicle_year x = Some 2021%Z) ∧
  (∃ fr row,
     old_customers_frame S Example.sales Example.vehicles Example.vehicle_models
       Example.customers = Return fr ∧
     filter (λ x, pd.loc fr "customer_id" x = Int 2) (pd.rows fr) = [row] ∧
     pd.loc fr "sale_dt" row = Int (datetime 2015 7 1) ∧
     pd.loc fr "vehicle_brand" row = Str "Ford" ∧
     pd.loc fr "vehicle_model" row = Str "Focus" ∧
     pd.loc fr "vehicle_year" row = Int 2013 ∧
     ∃ x, x ∈ old_customers_rows Example.sales Example.vehicles Example.vehicle_models
                Example.customers ∧
          customer_id x = Some 2%Z ∧ sale_dt x = Some (datetime 2015 7 1) ∧
          brand_name x = Some "Toyota" ∧ model_name x = Some "Yaris" ∧
          vehicle_year x = Some 2015%Z).
Proof.
  split.
  - unfold new_customers_frame.
    set (df := new_customers_rows _ _ _ _).
    destruct (last_purchase_spec S df) as (fr & Hfr & _ & Hcols & _).
    destruct (last_purchase_row S df fr 1 Hfr) as [j Hj].
    { eexists. split; [apply list_elem_of_In; vm_compute; left; reflexivity|reflexivity]. }
    exists fr. eexists. split; [done|]. split; [exact Hj|].
    assert (purchase_cells (filter (λ x, customer_id x = Some 1%Z) df)
            = [Int (datetime 2021 3 1); Str "Alice"; Str "Toyota"; Str "Corolla"; Int 2020])
      as -> by (vm_compute; reflexivity).
    destruct (loc_purchase_row fr (Int j) (Int 1) (Int (datetime 2021 3 1)) (Str "Alice")
                (Str "Toyota") (Str "Corolla") (Int 2020) Hcols) as (_ & ? & _ & ? & ? & ?).
    do 4 (split; [done|]).
    eexists. split; [apply list_elem_of_In; vm_compute; right; left; reflexivity|].
    repeat split.
  - unfold old_customers_frame.
    set (df := old_customers_rows _ _ _ _).
    destruct (last_purchase_spec S df) as (fr & Hfr & _ & Hcols & _).
    destruct (last_purchase_row S df fr 2 Hfr) as [j Hj].
    { eexists. split; [apply list_elem_of_In; vm_compute; left; reflexivity|reflexivity]. }
    exists fr. eexists. split; [done|]. split; [exact Hj|].
    assert (purchase_cells (filter (λ x, customer_id x = Some 2%Z) df)
            = [Int (datetime 2015 7 1); Str "Bob"; Str "Ford"; Str "Focus"; Int 2013])
      as -> by (vm_compute; reflexivity).
    destruct (loc_purchase_row fr (Int j) (Int 2) (Int (datetime 2015 7 1)) (Str "Bob")
                (Str "Ford") (Str "Focus") (Int 2013) Hcols) as (_ & ? & _ & ? & ? & ?).
    do 4 (split; [done|]).
    eexists. split; [apply list_elem_of_In; vm_compute; right; left; reflexivity|].
    repeat split.
Qed.



(** [Invoices] with the [invoice_id] 1 twice. *)
Definition invoices_twice : list Invoice.row :=
  Invoice.mk (Some 1%Z) (Some 500%Z) :: Example.invoices.

(** Two sales of Toyotas at [2 ^ 62] each. *)
Definition sales_large : list Sale.row :=
  [ Example.sale 1 1 1 1 (datetime 2020 6 1); Example.sale 2 2 1 2 (datetime 2021 3 1) ].
Definition invoices_large : list Invoice.row :=
  [ Invoice.mk (Some 1%Z) (Some (2 ^ 62)%Z); Invoice.mk (Some 2%Z) (Some (2 ^ 62)%Z) ].
Definition vehicles_large : list Vehicle.row :=
  [ Vehicle.mk (Some 1%Z) (Some 1%Z) (Some 2020%Z);
    Vehicle.mk (Some 2%Z) (Some 1%Z) (Some 2021%Z) ].


(** C3. In the new-customers and old-customers reports every customer with
    a qualifying sale (a row of the joins without nulls dated on or after
    2020-01-01, respectively on or before 2016-01-01) has exactly one row,
    and its [sale_dt] is the latest date among the customer's qualifying
    sales. *)
Theorem customers_once_latest (S : Sorter) (r : report) (s : list Sale.row)
    (v : list Vehicle.row) (i : list Invoice.row) (m : list VehicleModel.row)
    (c : list Customer.row) (cid : Z) (x0 : merged Customer.row) (t0 : Z) :
  x0 ∈ pd.dropna (customers_merge s v m c) →
  customer_id x0 = Some cid → sale_dt x0 = Some t0 → qualifies r t0 →
  ∃ fr row t,
    frame S r s v i m c = Return fr ∧
    filter (λ x, pd.loc fr "customer_id" x = Int cid) (pd.rows fr) = [row] ∧
    pd.loc fr "sale_dt" row = Int t ∧
    (∃ x, x ∈ pd.dropna (customers_merge s v m c) ∧
          customer_id x = Some cid ∧ sale_dt x = Some t ∧ qualifies r t) ∧
    (∀ x t', x ∈ pd.dropna (customers_merge s v m c) →
             customer_id x = Some cid → sale_dt x = Some t' → qualifies r t' →
             (t' ≤ t)%Z).
Proof.
  intros Hx0 Hcid Ht0 Hq.
  rewrite (frame_last_purchase S r s v i m c t0 Hq).
  set (df := qualifying_rows r s v m c).
  assert (Hx0' : x0 ∈ df) by (apply elem_of_qualifying_rows; eauto).
  destruct (last_purchase_spec S df) as (fr & Hfr & _ & Hcols & _).
  destruct (last_purchase_row S df fr cid Hfr) as [j Hrow]; [by eauto|].
  set (g := filter (λ x, customer_id x = Some cid) df) in *.
  destruct (max_list_spec (omap sale_dt g) t0) as (t & Ht & Hin & Hmax).
  { apply list_elem_of_omap. exists x0. split; [|done]. by apply list_elem_of_filter. }
  exists fr, (Int j, Int cid :: purchase_cells g), t.
  split; [done|]. split; [done|]. split; [|split].
  - unfold purchase_cells.
    match goal with |- context [pd.loc fr _ (?x, [?c0; ?c1; ?c2; ?c3; ?c4; ?c5])] =>
      destruct (loc_purchase_row fr x c0 c1 c2 c3 c4 c5 Hcols) as (_ & -> & _) end.
    by rewrite Ht.
  - apply list_elem_of_omap in Hin as (x & Hx & Hxt).
    apply list_elem_of_filter in Hx as [Hxc Hx].
    apply elem_of_qualifying_rows in Hx as (Hx & t' & Ht' & Hq').
    exists x. rewrite Hxt in Ht'. injection Ht' as <-. done.
  - intros x t' Hx Hxc Hxt Hq'. apply Hmax, list_elem_of_omap.
    exists x. split; [|done]. apply list_elem_of_filter. split; [done|].
    apply elem_of_qualifying_rows. eauto.
Qed.

(** Carol, who bought on 2020-01-01, is in the new-customers report, and
    Dave, who bought on 2016-01-01, in the old-customers report. *)
Lemma customers_once_latest_witness :
  (∃ fr row t,
     frame stable NewCustomers Example.sales Example.vehicles Example.invoices
       Example.vehicle_models Example.customers = Return fr ∧
     filter (λ x, pd.loc fr "customer_id" x = Int 3) (pd.rows fr) = [row] ∧
     pd.loc fr "sale_dt" row = Int t ∧
     (∃ x, x ∈ pd.dropna (customers_merge Example.sales Example.vehicles
                            Example.vehicle_models Example.customers) ∧
           customer_id x = Some 3%Z ∧ sale_dt x = Some t ∧ qualifies NewCustomers t) ∧
     (∀ x t', x ∈ pd.dropna (customers_merge Example.sales Example.vehicles
                               Example.vehicle_models Example.customers) →
              customer_id x = Some 3%Z → sale_dt x = Some t' → qualifies NewCustomers t' →
              (t' ≤ t)%Z)) ∧
  (∃ fr row t,
     frame stable OldCustomers Example.sales Example.vehicles Example.invoices
       Example.vehicle_models Example.customers = Return fr ∧
     filter (λ x, pd.loc fr "customer_id" x = Int 4) (pd.rows fr) = [row] ∧
     pd.loc fr "sale_dt" row = Int t ∧
     (∃ x, x ∈ pd.dropna (customers_merge Example.sales Example.vehicles
                            Example.vehicle_models Example.customers) ∧
           customer_id x = Some 4%Z ∧ sale_dt x = Some t ∧ qualifies OldCustomers t) ∧
     (∀ x t', x ∈ pd.dropna (customers_merge Example.sales Example.vehicles
                               Example.vehicle_models Example.customers) →
              customer_id x = Some 4%Z → sale_dt x = Some t' → qualifies OldCustomers t' →
              (t' ≤ t)%Z)).
Proof.
  split.
  - apply (customers_once_latest stable NewCustomers Example.sales Example.vehicles
             Example.invoices Example.vehicle_models Example.customers 3
             Example.carol_row (datetime 2020 1 1)).
    + apply list_elem_of_In. vm_compute. auto 10.
    + reflexivity.
    + reflexivity.
    + simpl. lia.
  - apply (customers_once_latest stable OldCustomers Example.sales Example.vehicles
             Example.invoices Example.vehicle_models Example.customers 4
             Example.dave_row (datetime 2016 1 1)).
    + apply list_elem_of_In. vm_compute. auto 10.
    + reflexivity.
    + reflexivity.
    + simpl. lia.
Defined.

(** The tie-break as the specification words it (not as the code computes
    it): of the most frequent values, the one met first when the list is
    traversed. *)
Definition mode_first_encountered (l : list string) : option string :=
  head (filter (λ b, pd.count_of b l = pd.max_count l) l).

(** C4 as stated: the reported brand of a customer is the mode of the
    customer's brands, ties broken by the first brand met in ascending
    [sale_dt] order (the order of the retained rows). *)
Definition ties_by_first_encountered (S : Sorter) (s : list Sale.row)
    (v : list Vehicle.row) (m : list VehicleModel.row) (c : list Customer.row) : Prop :=
  ∀ fr row k,
    next_vehicle_frame S s v m c = Return fr → row ∈ pd.rows fr → row.1 = Int k →
    pd.loc fr "most_common_second_veh_brand" row
    = pd.to_cell (mode_first_encountered
                    (omap brand_name (filter (λ x, customer_id x = Some k)
                                        (next_vehicle_rows S s v m c)))).

(** The frame of [next_vehicle] on the example database. *)
Definition example_next_vehicle : pd.DataFrame :=
  {| pd.index_name := Some "customer_id";
     pd.columns := ["most_common_second_veh_brand"; "first_veh_brand"];
     pd.rows := [(Int 2, [Str "Ford"; Str "Ford"]); (Int 1, [Str "Honda"; Str "Toyota"])] |}.

(** C4 fails as stated.  Alice bought a Toyota, then a Honda: both brands
    occur once, the Toyota is met first, and the report says Honda. *)
Lemma ties_not_by_first_encountered :
  ¬ ties_by_first_encountered stable Example.sales Example.vehicles
      Example.vehicle_models Example.customers.
Proof.
  intros H.
  specialize (H example_next_vehicle (Int 1, [Str "Honda"; Str "Toyota"]) 1%Z).
  assert (Hc : Str "Honda" = Str "Toyota"); [|discriminate Hc].
  apply H; [by vm_compute|right; left|reflexivity].
Qed.

(** C4, amended.  In a next-vehicle report the [most_common_second_veh_brand]
    of a customer is a most frequent non-null [brand_name] among all the rows
    of that customer (who has more than one), and of several equally
    frequent brands the least in the order of strings. *)
Theorem most_common_brand_least_mode (S : Sorter) (s : list Sale.row)
    (v : list Vehicle.row) (m : list VehicleModel.row) (c : list Customer.row)
    (fr : pd.DataFrame) (row : cell * list cell) (k : Z) :
  next_vehicle_frame S s v m c = Return fr → row ∈ pd.rows fr → row.1 = Int k →
  let brands := omap brand_name (filter (λ x, customer_id x = Some k)
                                   (customers_merge s v m c)) in
  (1 < n_rows s v m c k)%nat ∧
  ∃ b, pd.loc fr "most_common_second_veh_brand" row = Str b ∧
       b ∈ brands ∧
       ∀ b', b' ∈ brands →
             (pd.count_of b' brands ≤ pd.count_of b brands)%nat ∧
             (pd.count_of b' brands = pd.count_of b brands → String.leb b b' = true).
Proof.
  intros Hfr Hrow Hk brands.
  destruct (next_vehicle_frame_inv S s v m c fr Hfr) as (_ & Hcols & _).
  destruct (next_vehicle_row S s v m c fr row Hfr Hrow) as (k' & b & rest & Hn & Hb & ->).
  simpl in Hk. injection Hk as ->. split; [done|].
  exists b. split; [by apply loc_next_vehicle_row|].
  apply mode_head in Hb as [Hin Hall]. rewrite omap_id_fmap in Hin, Hall.
  assert (Hp : omap brand_name (filter (λ x, customer_id x = Some k)
                                  (next_vehicle_rows S s v m c)) ≡ₚ brands).
  { unfold brands. by rewrite (next_vehicle_rows_customer S s v m c k Hn). }
  split; [by rewrite <- Hp|]. intros b' Hb'.
  rewrite <- !(count_of_perm _ _ _ Hp). apply Hall. by rewrite Hp.
Qed.

(** Alice again: Honda and Toyota once each, Honda reported. *)
Lemma most_common_brand_least_mode_witness :
  let brands := omap brand_name (filter (λ x, customer_id x = Some 1%Z)
                                   (customers_merge Example.sales Example.vehicles
                                      Example.vehicle_models Example.customers)) in
  (1 < n_rows Example.sales Example.vehicles Example.vehicle_models
         Example.customers 1)%nat ∧
  ∃ b, pd.loc example_next_vehicle "most_common_second_veh_brand"
         (Int 1, [Str "Honda"; Str "Toyota"]) = Str b ∧
       b ∈ brands ∧
       ∀ b', b' ∈ brands →
             (pd.count_of b' brands ≤ pd.count_of b brands)%nat ∧
             (pd.count_of b' brands = pd.count_of b brands → String.leb b b' = true).
Proof.
  apply (most_common_brand_least_mode stable Example.sales Example.vehicles
           Example.vehicle_models Example.customers example_next_vehicle
           (Int 1, [Str "Honda"; Str "Toyota"]) 1).
  - vm_compute. reflexivity.
  - right. left.
  - reflexivity.
Defined.

(** C5. The rows of the sales-by-brand report are sorted: of two adjacent
    rows the earlier has the larger or equal [n_sales], and with equal
    [n_sales] the larger or equal [total_value]. *)
Theorem sales_by_brand_sorted (S : Sorter) (s : list Sale.row) (v : list Vehicle.row)
    (i : list Invoice.row) (m : list VehicleModel.row) :
  ∃ fr, sales_by_brand_frame S s v i m = Return fr ∧
    ∀ k a b, pd.rows fr !! k = Some a → pd.rows fr !! (k + 1) = Some b →
      ∃ na ta nb tb,
        pd.loc fr "n_sales" a = Int na ∧ pd.loc fr "total_value" a = Int ta ∧
        pd.loc fr "n_sales" b = Int nb ∧ pd.loc fr "total_value" b = Int tb ∧
        (nb ≤ na)%Z ∧ (na = nb → (tb ≤ ta)%Z).
Proof.
  destruct (sales_by_brand_spec S s v i m) as (fr & Hfr & _ & Hcols & _ & Hsorted).
  exists fr. split; [done|]. intros k a b Ha Hb. rewrite Nat.add_1_r in Hb.
  pose proof (Sorted_lookup _ _ _ _ _ Hsorted Ha Hb) as Hab. simpl in Hab.
  apply list_elem_of_lookup_2 in Ha, Hb.
  apply (brand_row_shape S s v i m fr) in Ha as (ka & ga & _ & ->); [|done].
  apply (brand_row_shape S s v i m fr) in Hb as (kb & gb & _ & ->); [|done].
  revert Hab.
  repeat match goal with
         | |- context [pd.loc fr ?c (?x, [?c0; ?c1; ?c2])] =>
             let H := fresh in
             pose proof (loc_brand_row fr x c0 c1 c2 Hcols) as (_ & H & _); rewrite H; clear H
         | |- context [pd.loc fr ?c (?x, [?c0; ?c1; ?c2])] =>
             let H := fresh in
             pose proof (loc_brand_row fr x c0 c1 c2 Hcols) as (_ & _ & H); rewrite H; clear H
         end.
  intros Hab. do 4 eexists. do 4 (split; [reflexivity|]).
  generalize dependent (Z.of_nat (length ga.2)). intros na.
  generalize dependent (Z.of_nat (length gb.2)). intros nb.
  generalize dependent (pd.int64 (pd.sum_list (omap price ga.2))). intros ta.
  generalize dependent (pd.int64 (pd.sum_list (omap price gb.2))). intros tb.
  unfold pd.cell_geb, pd.cell_leb.
  destruct (decide (Int na = Int nb)) as [[= ->]|Hn].
  - rewrite bool_decide_eq_true_2 by done.
    destruct (decide (Int ta = Int tb)) as [[= ->]|Ht].
    + intros _. lia.
    + rewrite bool_decide_eq_false_2 by done. intros ?%Z.leb_le. lia.
  - rewrite bool_decide_eq_false_2 by done. intros ?%Z.leb_le.
    split; [done|]. intros ->. done.
Qed.

(** C6, where the code departs from it.  Erin has two sale records, and
    both vehicles are missing from [Vehicles]: the report has no row for
    her, indeed no row at all, for it raises [KeyError].  Whatever the
    sorting routine. *)
Theorem next_vehicle_loses_customer (S : Sorter) (f : string) :
  length (filter (λ r, Sale.customer_id r = Some 5%Z) Example.sales_unmatched) = 2%nat ∧
  n_rows Example.sales_unmatched Example.vehicles Example.vehicle_models
    Example.customers_erin 5 = 2%nat ∧
  next_vehicle_frame S Example.sales_unmatched Example.vehicles Example.vehicle_models
    Example.customers_erin = Raise KeyError ∧
  next_vehicle S f Example.world_unmatched = (Raise KeyError, Example.world_unmatched).
Proof.
  assert (Hfr : next_vehicle_frame S Example.sales_unmatched Example.vehicles
                  Example.vehicle_models Example.customers_erin = Raise KeyError).
  { apply (next_vehicle_frame_raises S _ _ _ _ 5).
    - vm_compute. lia.
    - intros x Hx _. apply list_elem_of_In in Hx. vm_compute in Hx.
      destruct Hx as [<-|[<-|[]]]; reflexivity. }
  split; [reflexivity|]. split; [reflexivity|]. split; [done|].
  unfold next_vehicle, mbind, M_bind, read_sql_query, lift. simpl. by rewrite Hfr.
Qed.

(** C7. Every report returns 0 when its file is written and 1 when the
    write fails, the error being caught; an error met before the write
    (no connection, a missing table, an error of the pipeline itself) is
    raised to the caller and nothing is written. *)
Theorem return_contract (S : Sorter) (r : report) (f : string) (w : World) :
  (con w = None → run S r f w = (Raise AttributeError, w)) ∧
  (∀ db, con w = Some db → missing_table r db →
     run S r f w = (Raise DatabaseError, w)) ∧
  (∀ db s v i m c, con w = Some db → reads r db s v i m c →
     match frame S r s v i m c with
     | Raise e => run S r f w = (Raise e, w)
     | Return df =>
         ∃ csv, pd.to_csv df (csv_columns r) = Return csv ∧
           (f ∉ unwritable w → run S r f w = (Return 0%Z, written w f csv)) ∧
           (f ∈ unwritable w → run S r f w = (Return 1%Z, w))
     end).
Proof.
  split; [|split].
  - intros Hcon. destruct r; simpl;
      unfold sales_by_brand, new_customers, old_customers, next_vehicle;
      unfold mbind, M_bind, read_sql_query; by rewrite Hcon.
  - intros db Hcon Hmiss. unfold missing_table in Hmiss.
    destruct r; simpl;
      unfold sales_by_brand, new_customers, old_customers, next_vehicle;
      unfold mbind, M_bind, read_sql_query; rewrite Hcon; cbv beta iota;
      repeat (match goal with
              | |- context [match ?t db with _ => _ end] =>
                  let E := fresh "E" in
                  destruct (t db) eqn:E; cbv beta iota; rewrite ?Hcon; cbv beta iota
              end); try done; destruct Hmiss as [?|[?|[?|?]]]; congruence.
  - intros db s v i m c Hcon Hreads. rewrite (run_reads S r f w db s v i m c) by done.
    unfold mbind, M_bind, lift.
    destruct (frame S r s v i m c) as [df|e] eqn:Hdf; [|done].
    destruct (to_csv_frame S r s v i m c df Hdf) as [csv Hcsv].
    exists csv. split; [done|].
    assert (Hcols : match csv_columns r with Some [] => None | _ => csv_columns r end
                    = csv_columns r) by (by destruct r).
    rewrite to_csv_unfold, Hcols, Hcsv.
    split; intros Hf.
    + by rewrite bool_decide_eq_false_2.
    + by rewrite bool_decide_eq_true_2.
Qed.

(** C8, where the code departs from it.  The frame of [next_vehicle] has
    the column [most_common_second_veh_brand] before [first_veh_brand], and
    so has the file, after the index [customer_id]: the columns come in the
    order of the merge, left frame first. *)
Theorem next_vehicle_column_order (S : Sorter) (s : list Sale.row) (v : list Vehicle.row)
    (m : list VehicleModel.row) (c : list Customer.row) :
  match next_vehicle_frame S s v m c with
  | Return fr =>
      pd.columns fr = ["most_common_second_veh_brand"; "first_veh_brand"] ∧
      pd.header <$> pd.to_csv fr None
      = Return ["customer_id"; "most_common_second_veh_brand"; "first_veh_brand"]
  | Raise _ => True
  end ∧
  pd.header <$> files (next_vehicle stable "next_vehicle.csv" Example.world).2
                  !! "next_vehicle.csv"
  = Some ["customer_id"; "most_common_second_veh_brand"; "first_veh_brand"].
Proof.
  split; [|by vm_compute].
  destruct (next_vehicle_frame S s v m c) as [fr|e] eqn:Hfr; [|done].
  destruct (next_vehicle_frame_inv S s v m c fr Hfr) as (Hidx & Hcols & _).
  split; [done|]. simpl. by rewrite Hidx, Hcols.
Qed.

(** C10. [next_vehicle] drops no nulls and indexes the series of modes
    unguarded: when a customer it keeps (more than one row of the merge) has
    no brand at all, as when no vehicle or no model matched, the series of
    modes is empty and the operation raises [KeyError] instead of returning
    a table; nothing is written. *)
Theorem next_vehicle_null_brands_raise (S : Sorter) (s : list Sale.row)
    (v : list Vehicle.row) (i : list Invoice.row) (m : list VehicleModel.row)
    (c : list Customer.row) (k : Z) (f : string) (w : World) (db : Database) :
  con w = Some db → reads NextVehicle db s v i m c →
  (1 < n_rows s v m c k)%nat →
  (∀ x, x ∈ customers_merge s v m c → customer_id x = Some k → brand_name x = None) →
  brand_modes (filter (λ x, customer_id x = Some k) (next_vehicle_rows S s v m c)) = [] ∧
  next_vehicle_frame S s v m c = Raise KeyError ∧
  next_vehicle S f w = (Raise KeyError, w).
Proof.
  intros Hcon Hreads Hn Hnull. split; [|split].
  - unfold brand_modes. apply mode_all_null. rewrite omap_id_fmap.
    apply omap_all_None. intros x Hx.
    rewrite (next_vehicle_rows_customer S s v m c k Hn) in Hx.
    apply list_elem_of_filter in Hx as [Hk Hx]. by apply Hnull.
  - by apply (next_vehicle_frame_raises S s v m c k).
  - change (next_vehicle S f w) with (run S NextVehicle f w).
    rewrite (run_reads S NextVehicle f w db s v i m c Hcon Hreads). simpl.
    unfold mbind, M_bind, lift.
    by rewrite (next_vehicle_frame_raises S s v m c k).
Qed.

(** Erin bought two vehicles that are not in [Vehicles]. *)
Lemma next_vehicle_null_brands_raise_witness :
  brand_modes (filter (λ x, customer_id x = Some 5%Z)
                 (next_vehicle_rows stable Example.sales_unmatched Example.vehicles
                    Example.vehicle_models Example.customers_erin)) = [] ∧
  next_vehicle_frame stable Example.sales_unmatched Example.vehicles
    Example.vehicle_models Example.customers_erin = Raise KeyError ∧
  next_vehicle stable "next_vehicle.csv" Example.world_unmatched
  = (Raise KeyError, Example.world_unmatched).
Proof.
  apply (next_vehicle_null_brands_raise stable Example.sales_unmatched Example.vehicles
           Example.invoices Example.vehicle_models Example.customers_erin 5
           "next_vehicle.csv" Example.world_unmatched Example.db_unmatched).
  - reflexivity.
  - repeat split.
  - vm_compute. lia.
  - intros x Hx _. apply list_elem_of_In in Hx. vm_compute in Hx.
    destruct Hx as [<-|[<-|[]]]; reflexivity.
Defined.

(** * More of the code *)

(** ** Construction *)

(** [ReportGenerator(dbname)], lines 20-28: [disk] gives, for each path that
    exists, the database it holds (one without tables when the file is not a
    database: [sqlite3.connect] opens it all the same).  When the path does
    not exist the error is logged and [self.con] is never set; the object is
    built all the same.  The other two arguments are the files and
    permissions the object will meet. *)
Definition __init__ (disk : gmap string Database) (dbname : string)
    (fs : gmap string pd.Csv) (ro : gset string) : World :=
  match disk !! dbname with
  | None => {| con := None; files := fs; unwritable := ro |}
  | Some db => {| con := Some db; files := fs; unwritable := ro |}
  end.

(** The default of the parameter [dbname]. *)
Definition default_dbname : string := "vehicle_crm.sqlite".

(** X1. Building a generator on a path that holds no database does not
    fail; the failure is deferred: the object has no connection, and each of
    the four reports called on it raises [AttributeError] and writes
    nothing. *)
Theorem init_defers_missing_file (S : Sorter) (r : report) (f : string)
    (disk : gmap string Database) (dbname : string) (fs : gmap string pd.Csv)
    (ro : gset string) :
  disk !! dbname = None →
  __init__ disk dbname fs ro = {| con := None; files := fs; unwritable := ro |} ∧
  run S r f (__init__ disk dbname fs ro)
  = (Raise AttributeError, __init__ disk dbname fs ro).
Proof.
  unfold __init__. intros ->. split; [done|].
  destruct r; simpl;
    unfold sales_by_brand, new_customers, old_customers, next_vehicle;
    unfold mbind, M_bind, read_sql_query; done.
Qed.

(** A machine without the default database file. *)
Lemma init_defers_missing_file_witness :
  __init__ ∅ default_dbname ∅ ∅ = {| con := None; files := ∅; unwritable := ∅ |} ∧
  run stable SalesByBrand "sales_by_brand.csv" (__init__ ∅ default_dbname ∅ ∅)
  = (Raise AttributeError, __init__ ∅ default_dbname ∅ ∅).
Proof.
  apply (init_defers_missing_file stable SalesByBrand "sales_by_brand.csv" ∅
           default_dbname ∅ ∅).
  reflexivity.
Defined.

(** ** __to_csv *)

Lemma forallb_columns_false (cols sel : list string) :
  forallb (λ c, bool_decide (c ∈ cols)) sel = false ↔ ∃ c, c ∈ sel ∧ c ∉ cols.
Proof.
  induction sel as [|c sel IH]; simpl.
  - split; [done|]. by intros (c & ?%elem_of_nil & _).
  - rewrite andb_false_iff, IH, bool_decide_eq_false. split.
    + intros [Hc|(c' & Hc' & Hn)]; [exists c; split; [left|done]|].
      exists c'. split; [by right|done].
    + intros (c' & [->|Hc']%elem_of_cons & Hn); [by left|]. right. eauto.
Qed.

(** X2. [__to_csv] never raises: it returns 0 or 1.  It returns 1 exactly
    when the destination cannot be written or a requested column is not a
    column of the frame (the [KeyError] is caught like the write error).
    When it returns 0 the destination holds the frame: the header is the
    name of the index and the requested columns, and every row of the frame
    gives one line, in order, with its index label and its cells in these
    columns; when [columns] is [None] or the empty list, all the columns
    are written. *)
Theorem to_csv_never_raises (df : pd.DataFrame) (f : string)
    (cols : option (list string)) (w : World) :
  ∃ code : Z,
    (__to_csv df f cols w).1 = Return code ∧
    (code = 0 ∨ code = 1)%Z ∧
    (code = 1%Z ↔ f ∈ unwritable w ∨ ∃ c, c ∈ default [] cols ∧ c ∉ pd.columns df) ∧
    (code = 0%Z →
     files (__to_csv df f cols w).2 !! f
     = Some match cols with
            | Some (c :: cs) =>
                {| pd.header := default "" (pd.index_name df) :: c :: cs;
                   pd.lines := (λ r, r.1 :: ((λ x, pd.loc df x r) <$> c :: cs))
                                 <$> pd.rows df |}
            | _ =>
                {| pd.header := default "" (pd.index_name df) :: pd.columns df;
                   pd.lines := (λ r, r.1 :: r.2) <$> pd.rows df |}
            end).
Proof.
  rewrite to_csv_unfold.
  assert (Hnone : ∀ code : Z, (code = 1%Z ↔ f ∈ unwritable w) →
            (code = 1%Z ↔ f ∈ unwritable w ∨ ∃ c : string, c ∈ [] ∧ c ∉ pd.columns df)).
  { intros code ->. split; [by left|]. intros [?|(c & ?%elem_of_nil & _)]; done. }
  assert (Hwritten : ∀ csv, files (written w f csv) !! f = Some csv).
  { intros csv. unfold written. simpl. apply lookup_insert_eq. }
  assert (Hall : ∀ csv,
    ∃ code : Z,
      (if bool_decide (f ∈ unwritable w) then (Return 1%Z, w)
       else (Return 0%Z, written w f csv)).1 = Return code ∧
      (code = 0 ∨ code = 1)%Z ∧ (code = 1%Z ↔ f ∈ unwritable w) ∧
      (code = 0%Z →
       files (if bool_decide (f ∈ unwritable w) then (Return 1%Z, w)
              else (Return 0%Z, written w f csv)).2 !! f = Some csv)).
  { intros csv. destruct (decide (f ∈ unwritable w)) as [Hf|Hf].
    - rewrite bool_decide_eq_true_2 by done. exists 1%Z. simpl.
      split; [done|]. split; [by right|]. split; [done|]. done.
    - rewrite bool_decide_eq_false_2 by done. exists 0%Z. simpl.
      split; [done|]. split; [by left|]. split; [done|]. intros _. apply Hwritten. }
  destruct cols as [[|c cs]|]; unfold pd.to_csv.
  - destruct (Hall {| pd.header := default "" (pd.index_name df) :: pd.columns df;
                      pd.lines := (λ r, r.1 :: r.2) <$> pd.rows df |})
      as (code & ? & ? & ? & ?). exists code. simpl. auto.
  - destruct (forallb (λ x, bool_decide (x ∈ pd.columns df)) (c :: cs)) eqn:Hcols.
    + destruct (Hall {| pd.header := default "" (pd.index_name df) :: c :: cs;
                        pd.lines := (λ r, r.1 :: ((λ x, pd.loc df x r) <$> c :: cs))
                                      <$> pd.rows df |})
        as (code & ? & ? & Hcode & ?). exists code.
      split; [done|]. split; [done|]. split; [|done].
      rewrite Hcode. split; [by left|]. intros [?|Hex]; [done|].
      change (default [] (Some (c :: cs))) with (c :: cs) in Hex.
      apply forallb_columns_false in Hex. rewrite Hcols in Hex. done.
    + exists 1%Z. simpl. split; [done|]. split; [by right|]. split; [|done].
      split; [|done]. intros _. right. by apply forallb_columns_false.
  - destruct (Hall {| pd.header := default "" (pd.index_name df) :: pd.columns df;
                      pd.lines := (λ r, r.1 :: r.2) <$> pd.rows df |})
      as (code & ? & ? & ? & ?). exists code. simpl. auto.
Qed.

(** ** The layout of the files *)

(** The header a report writes. *)
Definition report_header (r : report) : list string :=
  match r with
  | SalesByBrand => [""; "vehicle_brand"; "n_sales"; "total_value"]
  | NewCustomers | OldCustomers =>
      [""; "customer_name"; "vehicle_brand"; "vehicle_model"; "vehicle_year"; "sale_dt"]
  | NextVehicle => ["customer_id"; "most_common_second_veh_brand"; "first_veh_brand"]
  end.

Lemma frame_csv S r s v i m c :
  r ≠ NextVehicle →
  ∃ fr csv, frame S r s v i m c = Return fr ∧
            pd.to_csv fr (csv_columns r) = Return csv ∧
            pd.header csv = report_header r ∧
            Forall (λ l, length l = length (report_header r)) (pd.lines csv).
Proof.
  assert (Hlast : ∀ df, ∃ fr csv,
            last_purchase S df = Return fr ∧
            pd.to_csv fr (Some report_columns) = Return csv ∧
            pd.header csv = report_header NewCustomers ∧
            Forall (λ l, length l = length (report_header NewCustomers)) (pd.lines csv)).
  { intros df. destruct (last_purchase_spec S df) as (fr & Hfr & Hidx & Hcols & _).
    exists fr. unfold pd.to_csv. rewrite Hcols, Hidx.
    rewrite forallb_columns by (unfold purchase_columns, report_columns; repeat constructor).
    eexists. split; [done|]. split; [done|]. simpl. split; [done|].
    apply Forall_fmap, Forall_forall. intros x _. simpl. done. }
  intros Hr. destruct r; [|apply Hlast|apply Hlast|done]. simpl.
  destruct (sales_by_brand_spec S s v i m) as (fr & Hfr & Hidx & Hcols & _).
  exists fr. eexists. split; [done|]. split; [done|]. simpl.
  rewrite Hidx, Hcols. split; [done|].
  apply Forall_fmap, Forall_forall. intros x Hx.
  apply (brand_row_shape S s v i m fr) in Hx as (k & g & _ & ->); done.
Qed.

(** X4. Whenever [sales_by_brand], [new_customers] or [old_customers]
    returns 0, the destination holds a file whose header is the unnamed
    index followed by the report fields in the order of the docstring
    ([customer_id] is not written), and whose lines all have one cell per
    header entry. *)
Theorem report_file_layout (S : Sorter) (r : report) (f : string) (w w' : World) :
  r ≠ NextVehicle → run S r f w = (Return 0%Z, w') →
  ∃ csv, files w' !! f = Some csv ∧
         pd.header csv = report_header r ∧
         Forall (λ l, length l = length (report_header r)) (pd.lines csv).
Proof.
  intros Hr Hrun.
  apply run_Return_inv in Hrun as (db & s & v & i & m & c & fr & _ & _ & Hfr & Hcsv).
  destruct (frame_csv S r s v i m c Hr) as (fr' & csv & Hfr' & Hto & Hheader & Hlines).
  rewrite Hfr in Hfr'. injection Hfr' as <-.
  exists csv. split; [|done].
  rewrite to_csv_unfold in Hcsv.
  assert (Hcols : match csv_columns r with Some [] => None | _ => csv_columns r end
                  = csv_columns r) by (by destruct r).
  rewrite Hcols, Hto in Hcsv.
  destruct (bool_decide (f ∈ unwritable w)); [done|].
  injection Hcsv as <-. unfold written. simpl. apply lookup_insert_eq.
Qed.

(** The sales-by-brand report of the example database. *)
Lemma report_file_layout_witness :
  ∃ csv, files (run stable SalesByBrand "sales_by_brand.csv" Example.world).2
           !! "sales_by_brand.csv" = Some csv ∧
         pd.header csv = report_header SalesByBrand ∧
         Forall (λ l, length l = length (report_header SalesByBrand)) (pd.lines csv).
Proof.
  apply (report_file_layout stable SalesByBrand "sales_by_brand.csv" Example.world).
  - discriminate.
  - by vm_compute.
Defined.

(** ** The rows of new_customers and old_customers *)

Definition customer_report (r : report) : Prop := r = NewCustomers ∨ r = OldCustomers.

Lemma frame_customer_report S r s v i m c :
  customer_report r → frame S r s v i m c = last_purchase S (qualifying_rows r s v m c).
Proof. by intros [-> | ->]. Qed.

Lemma last_purchase_row_shape S df fr row :
  last_purchase S df = Return fr → row ∈ pd.rows fr →
  ∃ j k, k ∈ group_keys df customer_id ∧
         row = (Int j, Int k :: purchase_cells (filter (λ x, customer_id x = Some k) df)).
Proof.
  intros Hfr Hrow. destruct (last_purchase_spec S df) as (fr' & Hfr' & _ & _ & Hp).
  rewrite Hfr in Hfr'. injection Hfr' as <-.
  rewrite Hp, groups_groupby, <- list_fmap_compose, imap_fmap in Hrow.
  apply elem_of_lookup_imap in Hrow as (j & k & -> & Hk).
  exists (Z.of_nat j), k. split; [|done]. by apply list_elem_of_lookup_2 in Hk.
Qed.

Lemma head_omap_first {A B} (f : A → option B) (x : A) (rest : list A) (b : B) :
  f x = Some b → head (omap f (x :: rest)) = Some b.
Proof. intros Hx. csimpl. by rewrite Hx. Qed.

(** X5. The new-customers and old-customers reports hold no row but those
    of customers with a qualifying sale: the [customer_id] of each row is
    that of a row of the joins without nulls whose date is the [sale_dt] of
    the row and lies inside the bound of the report (on or after 2020-01-01,
    respectively on or before 2016-01-01). *)
Theorem customers_rows_qualify (S : Sorter) (r : report) (s : list Sale.row)
    (v : list Vehicle.row) (i : list Invoice.row) (m : list VehicleModel.row)
    (c : list Customer.row) (fr : pd.DataFrame) (row : cell * list cell) :
  customer_report r → frame S r s v i m c = Return fr → row ∈ pd.rows fr →
  ∃ cid t x,
    pd.loc fr "customer_id" row = Int cid ∧
    pd.loc fr "sale_dt" row = Int t ∧
    qualifies r t ∧
    x ∈ pd.dropna (customers_merge s v m c) ∧
    customer_id x = Some cid ∧ sale_dt x = Some t.
Proof.
  intros Hr Hfr Hrow. rewrite (frame_customer_report S r s v i m c Hr) in Hfr.
  set (df := qualifying_rows r s v m c) in *.
  destruct (last_purchase_spec S df) as (fr' & Hfr' & _ & Hcols & _).
  rewrite Hfr in Hfr'. injection Hfr' as <-.
  destruct (last_purchase_row_shape S df fr row Hfr Hrow) as (j & k & Hk & ->).
  apply elem_of_group_keys in Hk as (x0 & Hx0 & Hx0k).
  pose proof Hx0 as Hq. apply elem_of_qualifying_rows in Hq as (_ & t0 & Ht0 & _).
  set (g := filter (λ x, customer_id x = Some k) df).
  destruct (max_list_spec (omap sale_dt g) t0) as (t & Ht & Hin & _).
  { apply list_elem_of_omap. exists x0. split; [|done]. by apply list_elem_of_filter. }
  apply list_elem_of_omap in Hin as (x & Hx & Hxt).
  apply list_elem_of_filter in Hx as [Hxk Hx].
  apply elem_of_qualifying_rows in Hx as (Hx & t' & Ht' & Hqt).
  rewrite Hxt in Ht'. injection Ht' as <-.
  exists k, t, x. unfold purchase_cells. fold g.
  match goal with |- context [pd.loc fr _ (?a, [?c0; ?c1; ?c2; ?c3; ?c4; ?c5])] =>
    destruct (loc_purchase_row fr a c0 c1 c2 c3 c4 c5 Hcols) as (-> & -> & _) end.
  rewrite Ht. done.
Qed.

(** The frame of [new_customers] on the example database, and Carol's row. *)
Definition example_new_customers : pd.DataFrame :=
  {| pd.index_name := None;
     pd.columns := ["customer_id"; "sale_dt"; "customer_name"; "vehicle_brand";
                    "vehicle_model"; "vehicle_year"];
     pd.rows := [(Int 0, [Int 1; Int (datetime 2021 3 1); Str "Alice";
                          Str "Toyota"; Str "Corolla"; Int 2020]);
                 (Int 1, [Int 3; Int (datetime 2020 1 1); Str "Carol";
                          Str "Honda"; Str "Civic"; Int 2019])] |}.

Definition example_carol : cell * list cell :=
  (Int 1, [Int 3; Int (datetime 2020 1 1); Str "Carol"; Str "Honda"; Str "Civic";
           Int 2019]).

Lemma customers_rows_qualify_witness :
  ∃ cid t x,
    pd.loc example_new_customers "customer_id" example_carol = Int cid ∧
    pd.loc example_new_customers "sale_dt" example_carol = Int t ∧
    qualifies NewCustomers t ∧
    x ∈ pd.dropna (customers_merge Example.sales Example.vehicles Example.vehicle_models
                     Example.customers) ∧
    customer_id x = Some cid ∧ sale_dt x = Some t.
Proof.
  apply (customers_rows_qualify stable NewCustomers Example.sales Example.vehicles
           Example.invoices Example.vehicle_models Example.customers).
  - by left.
  - by vm_compute.
  - right. left.
Defined.

(** X6. The name, brand, model and year of a row of the new-customers or
    old-customers report are those of one and the same row of the joins: the
    first of the customer's qualifying rows, in the order of the frame (the
    order of the [Sales] table).  None of them is null. *)
Theorem customers_fields_of_first_row (S : Sorter) (r : report) (s : list Sale.row)
    (v : list Vehicle.row) (i : list Invoice.row) (m : list VehicleModel.row)
    (c : list Customer.row) (fr : pd.DataFrame) (row : cell * list cell) :
  customer_report r → frame S r s v i m c = Return fr → row ∈ pd.rows fr →
  ∃ cid x rest name brand model year,
    pd.loc fr "customer_id" row = Int cid ∧
    filter (λ y, customer_id y = Some cid) (qualifying_rows r s v m c) = x :: rest ∧
    customer_name x = Some name ∧ pd.loc fr "customer_name" row = Str name ∧
    brand_name x = Some brand ∧ pd.loc fr "vehicle_brand" row = Str brand ∧
    model_name x = Some model ∧ pd.loc fr "vehicle_model" row = Str model ∧
    vehicle_year x = Some year ∧ pd.loc fr "vehicle_year" row = Int year.
Proof.
  intros Hr Hfr Hrow. rewrite (frame_customer_report S r s v i m c Hr) in Hfr.
  set (df := qualifying_rows r s v m c) in *.
  destruct (last_purchase_spec S df) as (fr' & Hfr' & _ & Hcols & _).
  rewrite Hfr in Hfr'. injection Hfr' as <-.
  destruct (last_purchase_row_shape S df fr row Hfr Hrow) as (j & k & Hk & ->).
  apply elem_of_group_keys in Hk as (x0 & Hx0 & Hx0k).
  destruct (filter (λ y, customer_id y = Some k) df) as [|x rest] eqn:Hg.
  { assert (Hin : x0 ∈ filter (λ y, customer_id y = Some k) df)
      by (by apply list_elem_of_filter).
    rewrite Hg in Hin. by apply elem_of_nil in Hin. }
  assert (Hx : x ∈ df).
  { assert (Hin : x ∈ x :: rest) by left. rewrite <- Hg in Hin.
    by apply list_elem_of_filter in Hin as [_ ?]. }
  apply elem_of_qualifying_rows in Hx as [[Hnn _]%elem_of_dropna _].
  apply notnull_merged in Hnn as (_ & _ & Hc & [year Hy] & [brand Hb] & [model Hm]).
  apply customer_notnull in Hc as [name Hn]. fold (customer_name x) in Hn.
  exists k, x, rest, name, brand, model, year. unfold purchase_cells.
  rewrite (head_omap_first customer_name x rest name Hn).
  rewrite (head_omap_first brand_name x rest brand Hb).
  rewrite (head_omap_first model_name x rest model Hm).
  rewrite (head_omap_first vehicle_year x rest year Hy).
  match goal with |- context [pd.loc fr _ (?a, [?c0; ?c1; ?c2; ?c3; ?c4; ?c5])] =>
    destruct (loc_purchase_row fr a c0 c1 c2 c3 c4 c5 Hcols)
      as (-> & _ & -> & -> & -> & ->) end.
  done.
Qed.

Lemma customers_fields_of_first_row_witness :
  ∃ cid x rest name brand model year,
    pd.loc example_new_customers "customer_id" example_carol = Int cid ∧
    filter (λ y, customer_id y = Some cid)
      (qualifying_rows NewCustomers Example.sales Example.vehicles Example.vehicle_models
         Example.customers) = x :: rest ∧
    customer_name x = Some name ∧
    pd.loc example_new_customers "customer_name" example_carol = Str name ∧
    brand_name x = Some brand ∧
    pd.loc example_new_customers "vehicle_brand" example_carol = Str brand ∧
    model_name x = Some model ∧
    pd.loc example_new_customers "vehicle_model" example_carol = Str model ∧
    vehicle_year x = Some year ∧
    pd.loc example_new_customers "vehicle_year" example_carol = Int year.
Proof.
  apply (customers_fields_of_first_row stable NewCustomers Example.sales Example.vehicles
           Example.invoices Example.vehicle_models Example.customers).
  - by left.
  - by vm_compute.
  - right. left.
Defined.

(** ** The order of the rows *)

Lemma cell_leb_trans a b c :
  pd.cell_leb a b = true → pd.cell_leb b c = true → pd.cell_leb a c = true.
Proof.
  destruct a as [|x|x], b as [|y|y], c as [|z|z]; simpl; try done.
  - intros ?%Z.leb_le ?%Z.leb_le. apply Z.leb_le. lia.
  - apply (leb_trans (K := string)).
Qed.

(** Sorting a frame on one column, ascending, leaves it sorted on it. *)
Lemma sort_values_single_sorted S df col fr :
  pd.sort_values S df [col] true = Return fr →
  Sorted (λ a b, pd.cell_leb (pd.loc fr col a) (pd.loc fr col b) = true) (pd.rows fr).
Proof.
  unfold pd.sort_values. destruct (forallb _ _); [|done]. intros [= <-]. simpl.
  apply (sort_sorted S _ (λ a b, pd.cell_leb (pd.loc df col a) (pd.loc df col b))).
  - intros a b. apply cell_leb_total.
  - intros a b c. apply cell_leb_trans.
Qed.

Lemma last_purchase_sorted S df fr :
  last_purchase S df = Return fr →
  Sorted (λ a b, pd.cell_leb (pd.loc fr "customer_name" a) (pd.loc fr "customer_name" b)
                 = true) (pd.rows fr).
Proof.
  unfold last_purchase. rewrite (agg_total _ _ purchase_cells) by done.
  unfold mbind, result_bind. cbv beta iota zeta. apply sort_values_single_sorted.
Qed.

Lemma customer_row_name S r s v i m c fr row :
  customer_report r → frame S r s v i m c = Return fr → row ∈ pd.rows fr →
  ∃ name, pd.loc fr "customer_name" row = Str name.
Proof.
  intros Hr Hfr Hrow. rewrite (frame_customer_report S r s v i m c Hr) in Hfr.
  set (df := qualifying_rows r s v m c) in *.
  destruct (last_purchase_spec S df) as (fr' & Hfr' & _ & Hcols & _).
  rewrite Hfr in Hfr'. injection Hfr' as <-.
  destruct (last_purchase_row_shape S df fr row Hfr Hrow) as (j & k & Hk & ->).
  apply elem_of_group_keys in Hk as (x0 & Hx0 & Hx0k).
  assert (Hin : x0 ∈ filter (λ y, customer_id y = Some k) df)
    by (by apply list_elem_of_filter).
  destruct (filter (λ y, customer_id y = Some k) df) as [|x rest] eqn:Hg;
    [by apply elem_of_nil in Hin|].
  assert (Hx : x ∈ df).
  { assert (Hx : x ∈ x :: rest) by left. rewrite <- Hg in Hx.
    by apply list_elem_of_filter in Hx as [_ ?]. }
  apply elem_of_qualifying_rows in Hx as [[Hnn _]%elem_of_dropna _].
  apply notnull_merged in Hnn as (_ & _ & Hc & _).
  apply customer_notnull in Hc as [name Hn]. fold (customer_name x) in Hn.
  exists name. unfold purchase_cells.
  rewrite (head_omap_first customer_name x rest name Hn).
  match goal with |- context [pd.loc fr _ (?a, [?c0; ?c1; ?c2; ?c3; ?c4; ?c5])] =>
    destruct (loc_purchase_row fr a c0 c1 c2 c3 c4 c5 Hcols) as (_ & _ & -> & _) end.
  done.
Qed.

(** X7. The rows of the new-customers and old-customers reports are in
    ascending order of [customer_name]: of two adjacent rows the earlier
    has the smaller or equal name, in the order of strings, whatever
    sorting routine numpy uses. *)
Theorem customers_sorted_by_name (S : Sorter) (r : report) (s : list Sale.row)
    (v : list Vehicle.row) (i : list Invoice.row) (m : list VehicleModel.row)
    (c : list Customer.row) (fr : pd.DataFrame) (k : nat) (a b : cell * list cell) :
  customer_report r → frame S r s v i m c = Return fr →
  pd.rows fr !! k = Some a → pd.rows fr !! (k + 1) = Some b →
  ∃ na nb, pd.loc fr "customer_name" a = Str na ∧
           pd.loc fr "customer_name" b = Str nb ∧
           String.leb na nb = true.
Proof.
  intros Hr Hfr Ha Hb. rewrite Nat.add_1_r in Hb.
  assert (Hna : ∃ na, pd.loc fr "customer_name" a = Str na).
  { apply list_elem_of_lookup_2 in Ha.
    destruct (customer_row_name S r s v i m c fr a Hr Hfr Ha) as (na & Hna). eauto. }
  assert (Hnb : ∃ nb, pd.loc fr "customer_name" b = Str nb).
  { apply list_elem_of_lookup_2 in Hb.
    destruct (customer_row_name S r s v i m c fr b Hr Hfr Hb) as (nb & Hnb). eauto. }
  destruct Hna as [na Hna], Hnb as [nb Hnb]. exists na, nb. do 2 (split; [done|]).
  rewrite (frame_customer_report S r s v i m c Hr) in Hfr.
  pose proof (Sorted_lookup _ _ _ _ _ (last_purchase_sorted S _ fr Hfr) Ha Hb) as Hab.
  simpl in Hab. by rewrite Hna, Hnb in Hab.
Qed.

(** Alice before Carol. *)
Lemma customers_sorted_by_name_witness :
  ∃ na nb, pd.loc example_new_customers "customer_name"
             (Int 0, [Int 1; Int (datetime 2021 3 1); Str "Alice"; Str "Toyota";
                      Str "Corolla"; Int 2020]) = Str na ∧
           pd.loc example_new_customers "customer_name" example_carol = Str nb ∧
           String.leb na nb = true.
Proof.
  apply (customers_sorted_by_name stable NewCustomers Example.sales Example.vehicles
           Example.invoices Example.vehicle_models Example.customers
           example_new_customers 0).
  - by left.
  - by vm_compute.
  - reflexivity.
  - reflexivity.
Defined.

(** ** The totals of sales_by_brand *)

Section GroupSums.
Context {R K : Type} `{EqDecision K} (key : R → option K) (f : R → option Z).

Lemma sum_omap_cons (r : R) (l : list R) :
  pd.sum_list (omap f (r :: l)) = (default 0 (f r) + pd.sum_list (omap f l))%Z.
Proof. csimpl. by destruct (f r). Qed.

Lemma sum_filter_key_cons (df : list R) (k : K) (ks : list K) :
  k ∉ ks →
  pd.sum_list (omap f (filter (λ r, key r ∈ Some <$> k :: ks) df))
  = (pd.sum_list (omap f (filter (λ r, key r = Some k) df))
     + pd.sum_list (omap f (filter (λ r, key r ∈ Some <$> ks) df)))%Z.
Proof.
  intros Hk. induction df as [|r l IH]; [done|].
  rewrite !filter_cons.
  destruct (decide (key r = Some k)) as [E|E].
  - rewrite decide_True by (rewrite E; left).
    rewrite (decide_False (P := key r ∈ Some <$> ks)).
    { rewrite !sum_omap_cons, IH. lia. }
    rewrite E. intros (k' & [= <-] & Hk')%list_elem_of_fmap. done.
  - destruct (decide (key r ∈ Some <$> ks)) as [E'|E'].
    + rewrite decide_True by (by right). rewrite !sum_omap_cons, IH. lia.
    + rewrite decide_False; [done|].
      rewrite fmap_cons. intros [?|?]%elem_of_cons; done.
Qed.

(** The sums over the groups add up to the sum over the rows with a key. *)
Lemma group_values_sum (df : list R) (ks : list K) :
  NoDup ks →
  pd.sum_list ((λ k, pd.sum_list (omap f (filter (λ r, key r = Some k) df))) <$> ks)
  = pd.sum_list (omap f (filter (λ r, key r ∈ Some <$> ks) df)).
Proof.
  induction 1 as [|k ks Hk Hnd IH].
  - rewrite filter_none; [done|]. intros r _. by intros ?%elem_of_nil.
  - rewrite sum_filter_key_cons, <- IH by done. done.
Qed.
End GroupSums.

Lemma brand_frame_totals S s v i m fr :
  sales_by_brand_frame S s v i m = Return fr →
  pd.loc fr "total_value" <$> pd.rows fr
    ≡ₚ (λ g, Int (pd.int64 (pd.sum_list (omap price g.2)))) <$> brand_groups s v i m.
Proof.
  intros Hfr. destruct (sales_by_brand_spec S s v i m) as (fr' & Hfr' & _ & Hcols & Hp & _).
  rewrite Hfr in Hfr'. injection Hfr' as <-.
  rewrite !Hp, !fmap_imap, !imap_fmap. rewrite <- imap_const.
  match goal with |- ?a ≡ₚ ?b => cut (a = b); [by intros ->|] end.
  apply imap_ext. intros k g _. simpl. apply loc_brand_row, Hcols.
Qed.

Lemma sum_abs_omap_filter {R} (f : R → option Z) (P : R → Prop) `{∀ x, Decision (P x)}
    (l : list R) :
  (0 ≤ pd.sum_list (Z.abs <$> omap f (filter P l)) ≤ pd.sum_list (Z.abs <$> omap f l))%Z.
Proof.
  unfold pd.sum_list. induction l as [|x l IH]; [done|]. rewrite filter_cons.
  destruct (decide (P x)); csimpl; destruct (f x); rewrite ?fmap_cons; simpl; lia.
Qed.



(** ** The joins *)


(** X9. When [customer_id], [invoice_id], [vehicle_id] and [vehicle_model_id]
    are keys of their tables (no value twice), the joins neither duplicate
    nor lose a sale: the sales of the rows of the customer joins are, each
    as often as it is in [Sales], the sales whose [customer_id] is in
    [Customers] (a sale without vehicle or model is kept), and likewise with
    [Invoices] for [sales_by_brand].  Nothing is said of the order of the
    rows, which pandas changed in its version 2.2. *)
Theorem joins_keep_each_sale_once (s : list Sale.row) (v : list Vehicle.row)
    (i : list Invoice.row) (m : list VehicleModel.row) (c : list Customer.row) :
  NoDup (Customer.customer_id <$> c) → NoDup (Invoice.invoice_id <$> i) →
  NoDup (Vehicle.vehicle_id <$> v) → NoDup (VehicleModel.vehicle_model_id <$> m) →
  (λ r : merged Customer.row, r.1.1.1) <$> customers_merge s v m c
  ≡ₚ filter (λ x, Sale.customer_id x ∈ Customer.customer_id <$> c) s ∧
  (λ r : merged Invoice.row, r.1.1.1) <$> sales_merge s v i m
  ≡ₚ filter (λ x, Sale.invoice_id x ∈ Invoice.invoice_id <$> i) s.
Proof.
  intros Hc Hi Hv Hm. unfold customers_merge, sales_merge.
  split; (match goal with |- ?a ≡ₚ ?b => cut (a = b); [by intros ->|] end).
  - rewrite <- (merge_unique Sale.customer_id Customer.customer_id s c Hc).
    rewrite <- (merge_left_unique (λ r : Sale.row * Customer.row, Sale.vehicle_id r.1)
                  Vehicle.vehicle_id (pd.merge s c Sale.customer_id Customer.customer_id)
                  v Hv) at 2.
    rewrite <- (merge_left_unique vehicle_model_id VehicleModel.vehicle_model_id
                  (pd.merge_left (pd.merge s c Sale.customer_id Customer.customer_id) v
                     (λ r, Sale.vehicle_id r.1) Vehicle.vehicle_id) m Hm) at 2.
    by rewrite <- !list_fmap_compose.
  - rewrite <- (merge_unique Sale.invoice_id Invoice.invoice_id s i Hi).
    rewrite <- (merge_left_unique (λ r : Sale.row * Invoice.row, Sale.vehicle_id r.1)
                  Vehicle.vehicle_id (pd.merge s i Sale.invoice_id Invoice.invoice_id)
                  v Hv) at 2.
    rewrite <- (merge_left_unique vehicle_model_id VehicleModel.vehicle_model_id
                  (pd.merge_left (pd.merge s i Sale.invoice_id Invoice.invoice_id) v
                     (λ r, Sale.vehicle_id r.1) Vehicle.vehicle_id) m Hm) at 2.
    by rewrite <- !list_fmap_compose.
Qed.

(** The example database: six sales, each with a customer and an invoice. *)
Lemma joins_keep_each_sale_once_witness :
  (λ r : merged Customer.row, r.1.1.1)
    <$> customers_merge Example.sales Example.vehicles Example.vehicle_models
          Example.customers
  ≡ₚ filter (λ x, Sale.customer_id x ∈ Customer.customer_id <$> Example.customers)
      Example.sales ∧
  (λ r : merged Invoice.row, r.1.1.1)
    <$> sales_merge Example.sales Example.vehicles Example.invoices Example.vehicle_models
  ≡ₚ filter (λ x, Sale.invoice_id x ∈ Invoice.invoice_id <$> Example.invoices)
      Example.sales.
Proof.
  apply (joins_keep_each_sale_once Example.sales Example.vehicles Example.invoices
           Example.vehicle_models Example.customers).
  - refine (bool_decide_unpack _ _). by vm_compute.
  - refine (bool_decide_unpack _ _). by vm_compute.
  - refine (bool_decide_unpack _ _). by vm_compute.
  - refine (bool_decide_unpack _ _). by vm_compute.
Defined.

(** X10. Every row of the customer joins pairs a sale of [Sales] with a
    customer of [Customers] of the same [customer_id]; its vehicle, when it
    has one, is a vehicle of [Vehicles] with the [vehicle_id] of the sale,
    and it has none only when no vehicle has that id; likewise its model and
    the [vehicle_model_id] of the vehicle. *)
Theorem joins_follow_the_keys (s : list Sale.row) (v : list Vehicle.row)
    (m : list VehicleModel.row) (c : list Customer.row) (r : merged Customer.row) :
  r ∈ customers_merge s v m c →
  r.1.1.1 ∈ s ∧ r.1.1.2 ∈ c ∧
  Sale.customer_id r.1.1.1 = Customer.customer_id r.1.1.2 ∧
  match r.1.2 with
  | Some veh => veh ∈ v ∧ Sale.vehicle_id r.1.1.1 = Vehicle.vehicle_id veh
  | None => ¬ Sale.vehicle_id r.1.1.1 ∈ Vehicle.vehicle_id <$> v
  end ∧
  match r.2 with
  | Some mo => mo ∈ m ∧
               r.1.2 ≫= Vehicle.vehicle_model_id = VehicleModel.vehicle_model_id mo
  | None => ¬ r.1.2 ≫= Vehicle.vehicle_model_id ∈ VehicleModel.vehicle_model_id <$> m
  end.
Proof.
  unfold customers_merge. intros [Hr Hmo]%elem_of_merge_left.
  apply elem_of_merge_left in Hr as [Hr Hveh].
  apply elem_of_merge in Hr as (Hs & Hc & Hk).
  done.
Qed.

(** Carol's row: her sale, herself, her Honda Civic. *)
Lemma joins_follow_the_keys_witness :
  Example.carol_row.1.1.1 ∈ Example.sales ∧ Example.carol_row.1.1.2 ∈ Example.customers ∧
  Sale.customer_id Example.carol_row.1.1.1 = Customer.customer_id Example.carol_row.1.1.2 ∧
  match Example.carol_row.1.2 with
  | Some veh => veh ∈ Example.vehicles ∧
                Sale.vehicle_id Example.carol_row.1.1.1 = Vehicle.vehicle_id veh
  | None => ¬ Sale.vehicle_id Example.carol_row.1.1.1
              ∈ Vehicle.vehicle_id <$> Example.vehicles
  end ∧
  match Example.carol_row.2 with
  | Some mo => mo ∈ Example.vehicle_models ∧
               Example.carol_row.1.2 ≫= Vehicle.vehicle_model_id
               = VehicleModel.vehicle_model_id mo
  | None => ¬ Example.carol_row.1.2 ≫= Vehicle.vehicle_model_id
              ∈ VehicleModel.vehicle_model_id <$> Example.vehicle_models
  end.
Proof.
  apply (joins_follow_the_keys Example.sales Example.vehicles Example.vehicle_models
           Example.customers Example.carol_row).
  apply list_elem_of_In. vm_compute. auto 10.
Defined.

(** ** More on next_vehicle *)

(** X11. When [next_vehicle] returns a frame, a customer with at most one
    row of the joins is the label of no row, and a customer with two rows or
    more is the label of exactly one. *)
Theorem next_vehicle_once_when_returns (S : Sorter) (s : list Sale.row)
    (v : list Vehicle.row) (m : list VehicleModel.row) (c : list Customer.row)
    (fr : pd.DataFrame) (k : Z) :
  next_vehicle_frame S s v m c = Return fr →
  ((n_rows s v m c k ≤ 1)%nat → filter (λ r, r.1 = Int k) (pd.rows fr) = []) ∧
  ((2 ≤ n_rows s v m c k)%nat → ∃ row, filter (λ r, r.1 = Int k) (pd.rows fr) = [row]).
Proof.
  intros Hfr. pose proof (next_vehicle_labels S s v m c fr k Hfr) as Hlen.
  split; intros Hn.
  - rewrite decide_False in Hlen by lia. by apply nil_length_inv.
  - rewrite decide_True in Hlen by lia.
    destruct (filter _ (pd.rows fr)) as [|row [|row' l]]; [done| |done]. by exists row.
Qed.

(** Alice, with two sales, and Carol, with one. *)
Lemma next_vehicle_once_when_returns_witness :
  (((n_rows Example.sales Example.vehicles Example.vehicle_models Example.customers 3
     ≤ 1)%nat →
    filter (λ r, r.1 = Int 3) (pd.rows example_next_vehicle) = []) ∧
   ((2 ≤ n_rows Example.sales Example.vehicles Example.vehicle_models
           Example.customers 3)%nat →
    ∃ row, filter (λ r, r.1 = Int 3) (pd.rows example_next_vehicle) = [row])) ∧
  (((n_rows Example.sales Example.vehicles Example.vehicle_models Example.customers 1
     ≤ 1)%nat →
    filter (λ r, r.1 = Int 1) (pd.rows example_next_vehicle) = []) ∧
   ((2 ≤ n_rows Example.sales Example.vehicles Example.vehicle_models
           Example.customers 1)%nat →
    ∃ row, filter (λ r, r.1 = Int 1) (pd.rows example_next_vehicle) = [row])).
Proof.
  split.
  - apply (next_vehicle_once_when_returns stable Example.sales Example.vehicles
             Example.vehicle_models Example.customers example_next_vehicle 3).
    by vm_compute.
  - apply (next_vehicle_once_when_returns stable Example.sales Example.vehicles
             Example.vehicle_models Example.customers example_next_vehicle 1).
    by vm_compute.
Defined.

(** X12. [next_vehicle] returns a frame exactly when every customer with
    more than one row of the joins has a brand on at least one of them;
    otherwise it raises, and the exception is [KeyError]. *)
Theorem next_vehicle_returns_iff (S : Sorter) (s : list Sale.row) (v : list Vehicle.row)
    (m : list VehicleModel.row) (c : list Customer.row) :
  ((∃ fr, next_vehicle_frame S s v m c = Return fr) ↔
   ∀ k, (1 < n_rows s v m c k)%nat →
        ∃ x, x ∈ customers_merge s v m c ∧ customer_id x = Some k ∧
             is_Some (brand_name x)) ∧
  (∀ e, next_vehicle_frame S s v m c = Raise e → e = KeyError).
Proof.
  assert (Hdec : ∀ k, (1 < n_rows s v m c k)%nat →
            (∃ x, x ∈ customers_merge s v m c ∧ customer_id x = Some k ∧
                  is_Some (brand_name x)) ∨
            next_vehicle_frame S s v m c = Raise KeyError).
  { intros k Hn.
    destruct (decide (Exists (λ x, is_Some (brand_name x))
                        (filter (λ x, customer_id x = Some k) (customers_merge s v m c))))
      as [Hex|Hex].
    - left. apply Exists_exists in Hex as (x & [Hk Hx]%list_elem_of_filter & Hb). eauto.
    - right. apply (next_vehicle_frame_raises S s v m c k Hn). intros x Hx Hk.
      apply not_Exists_Forall in Hex; [|apply _]. rewrite Forall_forall in Hex.
      destruct (brand_name x) as [b|] eqn:Hb; [|done]. exfalso.
      apply (Hex x); [by apply list_elem_of_filter|]. rewrite Hb. by eauto. }
  split; [split|].
  - intros [fr Hfr] k Hn. destruct (Hdec k Hn) as [?|Hr]; [done|]. congruence.
  - apply next_vehicle_frame_returns.
  - intros e He. destruct (decide (e = KeyError)) as [|Hne]; [done|]. exfalso.
    destruct (next_vehicle_frame_returns S s v m c) as [fr Hfr]; [|congruence].
    intros k Hn. destruct (Hdec k Hn) as [?|Hr]; [done|]. congruence.
Qed.

Lemma opt_leb_total {K} `{OrdLaws K} (a b : option K) :
  pd.opt_leb a b = false → pd.opt_leb b a = true.
Proof. destruct a, b; simpl; try done. apply leb_total. Qed.

Lemma opt_leb_trans {K} `{OrdLaws K} (a b c : option K) :
  pd.opt_leb a b = true → pd.opt_leb b c = true → pd.opt_leb a c = true.
Proof. destruct a, b, c; simpl; try done. apply leb_trans. Qed.

Lemma StronglySorted_filter {A} (R : A → A → Prop) (P : A → Prop)
    `{∀ x, Decision (P x)} (l : list A) :
  StronglySorted R l → StronglySorted R (filter P l).
Proof.
  induction 1 as [|x l Hs IH Hall]; [constructor|].
  rewrite filter_cons. destruct (decide (P x)); [|done].
  constructor; [done|]. rewrite Forall_forall in Hall. apply Forall_forall.
  intros y [_ Hy]%list_elem_of_filter. by apply Hall.
Qed.

Lemma StronglySorted_after {A} (R : A → A → Prop) (pre post : list A) (x : A) :
  StronglySorted R (pre ++ x :: post) → Forall (R x) post.
Proof.
  induction pre as [|y pre IH]; simpl; intros Hs.
  - by apply StronglySorted_inv in Hs as [_ Hs].
  - apply StronglySorted_inv in Hs as [Hs _]. by apply IH.
Qed.

Lemma head_omap_Some {A B} (f : A → option B) (l : list A) (b : B) :
  head (omap f l) = Some b →
  ∃ pre x post, l = (pre ++ x :: post)%list ∧ f x = Some b ∧
                Forall (λ y, f y = None) pre.
Proof.
  induction l as [|y l IH]; [done|]. csimpl.
  destruct (f y) as [b'|] eqn:Hy.
  - intros [= ->]. exists [], y, l. by repeat split.
  - intros (pre & x & post & -> & Hx & Hpre)%IH.
    exists (y :: pre), x, post. split; [done|]. split; [done|]. by constructor.
Qed.

(** The retained rows are sorted by [sale_dt], nulls last. *)
Lemma next_vehicle_rows_sorted S s v m c :
  StronglySorted (λ a b, pd.opt_leb (sale_dt a) (sale_dt b) = true)
                 (next_vehicle_rows S s v m c).
Proof.
  unfold next_vehicle_rows, pd.sort_values_col.
  apply Sorted.Sorted_StronglySorted.
  - intros x y z. apply opt_leb_trans.
  - apply (sort_sorted S _ (λ a b, pd.opt_leb (sale_dt a) (sale_dt b))).
    + intros a b. apply opt_leb_total.
    + intros a b d. apply opt_leb_trans.
Qed.

(** The [first_veh_brand] of a row: the brand of the first row with a brand
    among the customer's retained rows. *)
Lemma next_vehicle_first_brand S s v m c fr row :
  next_vehicle_frame S s v m c = Return fr → row ∈ pd.rows fr →
  ∃ k b pre x post,
    row.1 = Int k ∧ (1 < n_rows s v m c k)%nat ∧
    filter (λ y, customer_id y = Some k) (next_vehicle_rows S s v m c)
    = (pre ++ x :: post)%list ∧
    brand_name x = Some b ∧ Forall (λ y, brand_name y = None) pre ∧
    pd.loc fr "first_veh_brand" row = Str b.
Proof.
  intros Hfr Hrow.
  destruct (next_vehicle_frame_inv S s v m c fr Hfr) as (_ & Hcols & _).
  destruct (next_vehicle_row S s v m c fr row Hfr Hrow) as (k & b0 & rest & Hn & Hb0 & ->).
  apply mode_head in Hb0 as [Hin _]. rewrite omap_id_fmap in Hin.
  destruct (head (omap brand_name (filter (λ x, customer_id x = Some k)
                                     (next_vehicle_rows S s v m c)))) as [b|] eqn:Hhead.
  - destruct (head_omap_Some _ _ _ Hhead) as (pre & x & post & Hg & Hx & Hpre).
    exists k, b, pre, x, post. do 5 (split; [done|]). by apply loc_next_vehicle_row.
  - apply head_None in Hhead. rewrite Hhead in Hin. by apply elem_of_nil in Hin.
Qed.

(** X13. In a next-vehicle report the [first_veh_brand] of a customer is the
    brand of one of the customer's purchases that have a brand, and none of
    these is dated earlier (a purchase without date counting as latest): it
    is the brand of the earliest purchase that has one. *)
Theorem first_brand_is_earliest (S : Sorter) (s : list Sale.row) (v : list Vehicle.row)
    (m : list VehicleModel.row) (c : list Customer.row) (fr : pd.DataFrame)
    (row : cell * list cell) (k : Z) :
  next_vehicle_frame S s v m c = Return fr → row ∈ pd.rows fr → row.1 = Int k →
  ∃ x b,
    x ∈ customers_merge s v m c ∧ customer_id x = Some k ∧ brand_name x = Some b ∧
    pd.loc fr "first_veh_brand" row = Str b ∧
    ∀ y, y ∈ customers_merge s v m c → customer_id y = Some k → is_Some (brand_name y) →
         pd.opt_leb (sale_dt x) (sale_dt y) = true.
Proof.
  intros Hfr Hrow Hk.
  destruct (next_vehicle_first_brand S s v m c fr row Hfr Hrow)
    as (k' & b & pre & x & post & Hk' & Hn & Hg & Hb & Hpre & Hloc).
  rewrite Hk in Hk'. injection Hk' as <-.
  pose proof (next_vehicle_rows_customer S s v m c k Hn) as Hp.
  pose proof (StronglySorted_filter _ (λ y, customer_id y = Some k) _
                (next_vehicle_rows_sorted S s v m c)) as Hsorted.
  rewrite Hg in Hp, Hsorted.
  assert (Hx : x ∈ filter (λ y, customer_id y = Some k) (customers_merge s v m c)).
  { rewrite <- Hp. apply elem_of_app. right. left. }
  apply list_elem_of_filter in Hx as [Hxk Hx].
  exists x, b. do 4 (split; [done|]).
  intros y Hy Hyk [by_ Hyb].
  assert (Hin : y ∈ (pre ++ x :: post)%list).
  { rewrite Hp. by apply list_elem_of_filter. }
  apply StronglySorted_after in Hsorted as Hpost.
  apply elem_of_app in Hin as [Hin|Hin].
  - rewrite Forall_forall in Hpre. rewrite (Hpre y Hin) in Hyb. done.
  - apply elem_of_cons in Hin as [->|Hin].
    + destruct (pd.opt_leb (sale_dt x) (sale_dt x)) eqn:E; [done|].
      pose proof (opt_leb_total _ _ E). congruence.
    + rewrite Forall_forall in Hpost. by apply Hpost.
Qed.

(** Alice bought the Toyota before the Honda. *)
Lemma first_brand_is_earliest_witness :
  ∃ x b,
    x ∈ customers_merge Example.sales Example.vehicles Example.vehicle_models
          Example.customers ∧
    customer_id x = Some 1%Z ∧ brand_name x = Some b ∧
    pd.loc example_next_vehicle "first_veh_brand" (Int 1, [Str "Honda"; Str "Toyota"])
    = Str b ∧
    ∀ y, y ∈ customers_merge Example.sales Example.vehicles Example.vehicle_models
               Example.customers →
         customer_id y = Some 1%Z → is_Some (brand_name y) →
         pd.opt_leb (sale_dt x) (sale_dt y) = true.
Proof.
  apply (first_brand_is_earliest stable Example.sales Example.vehicles
           Example.vehicle_models Example.customers example_next_vehicle
           (Int 1, [Str "Honda"; Str "Toyota"]) 1).
  - by vm_compute.
  - right. left.
  - reflexivity.
Defined.

Lemma next_vehicle_frame_sorted S s v m c fr :
  next_vehicle_frame S s v m c = Return fr →
  Sorted (λ a b, pd.cell_leb (pd.loc fr "first_veh_brand" a)
                             (pd.loc fr "first_veh_brand" b) = true) (pd.rows fr).
Proof.
  unfold next_vehicle_frame. intros Hfr.
  apply bind_Return_inv in Hfr as (df1 & _ & Hfr).
  apply bind_Return_inv in Hfr as (first & _ & Hfr).
  apply bind_Return_inv in Hfr as (df2 & _ & Hfr).
  by apply sort_values_single_sorted in Hfr.
Qed.

(** X14. The rows of a next-vehicle report are in ascending order of
    [first_veh_brand]: of two adjacent rows both have a brand there, and the
    earlier row's is the smaller or equal one in the order of strings,
    whatever sorting routine numpy uses. *)
Theorem next_vehicle_sorted_by_first_brand (S : Sorter) (s : list Sale.row)
    (v : list Vehicle.row) (m : list VehicleModel.row) (c : list Customer.row)
    (fr : pd.DataFrame) (k : nat) (a b : cell * list cell) :
  next_vehicle_frame S s v m c = Return fr →
  pd.rows fr !! k = Some a → pd.rows fr !! (k + 1) = Some b →
  ∃ ba bb, pd.loc fr "first_veh_brand" a = Str ba ∧
           pd.loc fr "first_veh_brand" b = Str bb ∧
           String.leb ba bb = true.
Proof.
  intros Hfr Ha Hb. rewrite Nat.add_1_r in Hb.
  destruct (next_vehicle_first_brand S s v m c fr a Hfr (list_elem_of_lookup_2 _ _ _ Ha))
    as (_ & ba & _ & _ & _ & _ & _ & _ & _ & _ & Hba).
  destruct (next_vehicle_first_brand S s v m c fr b Hfr (list_elem_of_lookup_2 _ _ _ Hb))
    as (_ & bb & _ & _ & _ & _ & _ & _ & _ & _ & Hbb).
  exists ba, bb. do 2 (split; [done|]).
  pose proof (Sorted_lookup _ _ _ _ _ (next_vehicle_frame_sorted S s v m c fr Hfr) Ha Hb)
    as Hab.
  simpl in Hab. by rewrite Hba, Hbb in Hab.
Qed.

(** Bob's Ford before Alice's Toyota. *)
Lemma next_vehicle_sorted_by_first_brand_witness :
  ∃ ba bb,
    pd.loc example_next_vehicle "first_veh_brand" (Int 2, [Str "Ford"; Str "Ford"])
    = Str ba ∧
    pd.loc example_next_vehicle "first_veh_brand" (Int 1, [Str "Honda"; Str "Toyota"])
    = Str bb ∧
    String.leb ba bb = true.
Proof.
  apply (next_vehicle_sorted_by_first_brand stable Example.sales Example.vehicles
           Example.vehicle_models Example.customers example_next_vehicle 0).
  - by vm_compute.
  - reflexivity.
  - reflexivity.
Defined.

(** ** The order of tied brands *)

Section StableSort.
Context {A : Type} (le : A → A → bool) (R : A → A → Prop).
Hypothesis le_total : ∀ a b, le a b = false → le b a = true.

(** Sorted, and tied elements in the order [R]. *)
Definition stably (a b : A) : Prop := le a b = true ∧ (le b a = true → R a b).

Lemma insert_sorted_stable x l :
  Forall (R x) l → Sorted stably l → Sorted stably (insert_sorted le x l).
Proof.
  intros Hx Hs. induction Hs as [|y l Hs IH Hhd]; simpl.
  - repeat constructor.
  - apply Forall_cons in Hx as [Hxy Hx]. destruct (le x y) eqn:E.
    + constructor; [by constructor|]. constructor. by split.
    + assert (Hyx : stably y x).
      { split; [by apply le_total|]. intros E'. congruence. }
      constructor; [by apply IH|].
      destruct Hhd as [|z l Hyz]; simpl; [by constructor|].
      destruct (le x z); by constructor.
Qed.

(** Insertion sort is stable: elements that compare equal keep the order
    they had. *)
Lemma isort_stable l : StronglySorted R l → Sorted stably (isort le l).
Proof.
  induction 1 as [|x l Hs IH Hx]; simpl; [constructor|].
  apply insert_sorted_stable; [|done].
  by rewrite isort_perm.
Qed.
End StableSort.

Lemma StronglySorted_NoDup {A} (R : A → A → Prop) (l : list A) :
  StronglySorted R l → NoDup l → StronglySorted (λ a b, R a b ∧ a ≠ b) l.
Proof.
  induction 1 as [|x l Hs IH Hx]; [constructor|].
  intros [Hnin Hnd]%NoDup_cons. constructor; [by apply IH|].
  rewrite Forall_forall in Hx. apply Forall_forall. intros y Hy.
  split; [by apply Hx|]. by intros ->.
Qed.

Lemma StronglySorted_imap {A B} (R' : A → A → Prop) (R : B → B → Prop)
    (F : nat → A → B) (l : list A) :
  (∀ j j' x y, R' x y → R (F j x) (F j' y)) →
  StronglySorted R' l → StronglySorted R (imap F l).
Proof.
  intros HF Hs. revert F HF.
  induction Hs as [|x l Hs IH Hx]; intros F HF; [constructor|].
  simpl. constructor.
  - apply IH. intros j j'. apply HF.
  - rewrite Forall_forall in Hx. apply Forall_forall.
    intros z (j & y & -> & Hy)%elem_of_lookup_imap. simpl.
    apply HF, Hx. by eapply list_elem_of_lookup_2.
Qed.

(** The keys of the groups are strictly ascending. *)
Lemma group_keys_ascending {R K} `{EqDecision K} `{OrdLaws K} (df : list R)
    (key : R → option K) :
  StronglySorted (λ a b, leb a b = true ∧ a ≠ b) (group_keys df key).
Proof.
  apply StronglySorted_NoDup; [|apply group_keys_NoDup].
  apply Sorted.Sorted_StronglySorted.
  - intros a b c. apply leb_trans.
  - apply isort_sorted, leb_total.
Qed.

(** Two rows of [sales_by_brand], the first of a smaller brand. *)
Definition brand_before (fr : pd.DataFrame) (a b : cell * list cell) : Prop :=
  ∃ ba bb, pd.loc fr "vehicle_brand" a = Str ba ∧ pd.loc fr "vehicle_brand" b = Str bb ∧
           String.leb ba bb = true ∧ ba ≠ bb.

Lemma sales_by_brand_stable S s v i m fr :
  sales_by_brand_frame S s v i m = Return fr →
  Sorted (stably (pd.lex_leb pd.cell_geb [pd.loc fr "n_sales"; pd.loc fr "total_value"])
                 (brand_before fr)) (pd.rows fr).
Proof.
  unfold sales_by_brand_frame.
  rewrite (agg_total _ _ brand_cells) by done.
  unfold mbind, result_bind. cbv beta iota zeta.
  rewrite sort_values_lex by repeat constructor.
  intros Hfr.
  pose proof (f_equal (λ r, match r with Return x => x | Raise _ => fr end) Hfr) as <-.
  clear Hfr. cbn [pd.rows].
  apply (isort_stable (pd.lex_leb pd.cell_geb _) _ (lex_leb_total _ _ cell_geb_total)).
  cbn [pd.rows pd.as_index pd.groupby pd.rename]. rewrite groups_groupby.
  rewrite <- list_fmap_compose, imap_fmap.
  eapply StronglySorted_imap; [|apply group_keys_ascending].
  intros j j' x y [Hxy Hne]. exists x, y. by repeat split.
Qed.

(** X15. Brands that tie in the sales-by-brand report, having the same
    [n_sales] and the same [total_value], come in ascending order of brand
    name: the groups come out of [groupby] in that order and the sort on
    several columns is stable. *)
Theorem sales_by_brand_ties_by_brand (S : Sorter) (s : list Sale.row)
    (v : list Vehicle.row) (i : list Invoice.row) (m : list VehicleModel.row)
    (fr : pd.DataFrame) (k : nat) (a b : cell * list cell) :
  sales_by_brand_frame S s v i m = Return fr →
  pd.rows fr !! k = Some a → pd.rows fr !! (k + 1) = Some b →
  pd.loc fr "n_sales" a = pd.loc fr "n_sales" b →
  pd.loc fr "total_value" a = pd.loc fr "total_value" b →
  ∃ ba bb, pd.loc fr "vehicle_brand" a = Str ba ∧ pd.loc fr "vehicle_brand" b = Str bb ∧
           String.leb ba bb = true ∧ ba ≠ bb.
Proof.
  intros Hfr Ha Hb Hn Ht. rewrite Nat.add_1_r in Hb.
  destruct (Sorted_lookup _ _ _ _ _ (sales_by_brand_stable S s v i m fr Hfr) Ha Hb)
    as [_ Hab].
  apply Hab. unfold pd.lex_leb.
  by rewrite !bool_decide_eq_true_2 by done.
Qed.

(** Ford and Toyota, two sales and 32000 each. *)
Lemma sales_by_brand_ties_by_brand_witness :
  ∃ ba bb,
    pd.loc (pd.Build_DataFrame None ["vehicle_brand"; "n_sales"; "total_value"]
              [(Int 1, [Str "Honda"; Int 2; Int 47000]);
               (Int 0, [Str "Ford"; Int 2; Int 32000]);
               (Int 2, [Str "Toyota"; Int 2; Int 32000])])
      "vehicle_brand" (Int 0, [Str "Ford"; Int 2; Int 32000]) = Str ba ∧
    pd.loc (pd.Build_DataFrame None ["vehicle_brand"; "n_sales"; "total_value"]
              [(Int 1, [Str "Honda"; Int 2; Int 47000]);
               (Int 0, [Str "Ford"; Int 2; Int 32000]);
               (Int 2, [Str "Toyota"; Int 2; Int 32000])])
      "vehicle_brand" (Int 2, [Str "Toyota"; Int 2; Int 32000]) = Str bb ∧
    String.leb ba bb = true ∧ ba ≠ bb.
Proof.
  apply (sales_by_brand_ties_by_brand stable Example.sales Example.vehicles
           Example.invoices Example.vehicle_models _ 1).
  - by vm_compute.
  - reflexivity.
  - reflexivity.
  - reflexivity.
  - reflexivity.
Defined.
